(** * Conversational Analytics: the chat pipeline of the backend

    A shallow embedding of [backend/services/gemini.js],
    [backend/services/bigquery.js] and the [POST /api/chat] handler of
    [backend/routes/chat.js], and the properties of the request pipeline
    (validate, fetch schema context, generate SQL, safety gate, execute,
    explain, respond) established on it.

    In the monad of the services an asynchronous call runs to completion
    before the next one starts, and requests are handled one after the
    other.  Calls of [executeQuery] that overlap are modelled apart, each
    call taken apart at its [await]s.  What is written to the console is
    not modelled. *)

From Stdlib Require Import List NArith Arith Bool Lia.
From Stdlib Require Import Strings.String Strings.Ascii Numbers.DecimalString.
Import ListNotations.

Set Implicit Arguments.

(* ================================================================== *)
(** * JavaScript strings *)
(* ================================================================== *)

(** A JavaScript string is modelled by the sequence of its code points.
    Every literal and every regular expression of the sources is ASCII, so
    matching them on code points and on UTF-16 code units is the same. *)
Definition jsstring := list N.

(** Source literals, written as Rocq strings. *)
Definition js (s : string) : jsstring :=
  map N_of_ascii (list_ascii_of_string s).

Definition LF : N := 10%N.
Definition DQUOTE : N := 34%N.
Definition DOT : N := 46%N.

(** ECMAScript [WhiteSpace] and [LineTerminator] code points, the ones
    [String.prototype.trim] removes. *)
Definition whiteSpaceCodes : list N :=
  [9; 10; 11; 12; 13; 32; 160; 5760;
   8192; 8193; 8194; 8195; 8196; 8197; 8198; 8199; 8200; 8201; 8202;
   8232; 8233; 8239; 8287; 12288; 65279]%N.

Definition isWhiteSpace (c : N) : bool :=
  existsb (N.eqb c) whiteSpaceCodes.

Fixpoint trimStart (s : jsstring) : jsstring :=
  match s with
  | [] => []
  | c :: r => if isWhiteSpace c then trimStart r else s
  end.

Definition trimEnd (s : jsstring) : jsstring := rev (trimStart (rev s)).

(** [s.trim()] *)
Definition trim (s : jsstring) : jsstring := trimEnd (trimStart s).

(** [s.startsWith(p)] *)
Fixpoint startsWith (p s : jsstring) : bool :=
  match p, s with
  | [], _ => true
  | _ :: _, [] => false
  | a :: p', b :: s' => N.eqb a b && startsWith p' s'
  end.

(** [s.includes(p)] *)
Fixpoint includes (p s : jsstring) : bool :=
  startsWith p s ||
  match s with
  | [] => false
  | _ :: r => includes p r
  end.

(** [s.endsWith(p)] *)
Definition endsWith (p s : jsstring) : bool := startsWith (rev p) (rev s).

(** [s.slice(0, -1)] *)
Definition dropLast (s : jsstring) : jsstring := removelast s.

(** A matcher tells, at a position of the subject, how many code points
    the regular expression matches there ([None]: no match). *)
Definition matcher := jsstring -> option nat.

(** The regular expressions [/```sql\n?/] and [/```\n?/]: a literal
    followed by an optional (greedy) line feed. *)
Definition literalOptLF (lit : jsstring) : matcher :=
  fun s =>
    if startsWith lit s then
      match skipn (List.length lit) s with
      | c :: _ => if N.eqb c LF then Some (S (List.length lit)) else Some (List.length lit)
      | [] => Some (List.length lit)
      end
    else None.

(** [s.replace(/re/g, '')] for a regular expression that never matches the
    empty string: the subject is scanned from left to right; a match is
    dropped and the scan resumes behind it.  [skip] counts the code points
    of the current match that are still to be dropped. *)
Fixpoint removeAll (m : matcher) (skip : nat) (s : jsstring) : jsstring :=
  match s with
  | [] => []
  | c :: r =>
      match skip with
      | S k => removeAll m k r
      | O =>
          match m s with
          | Some (S k) => removeAll m k r
          | _ => c :: removeAll m 0 r
          end
      end
  end.

Definition FENCE : jsstring := js "```".
Definition FENCE_SQL : jsstring := js "```sql".

(** Lines 98-101 of gemini.js:
    [response.text().trim()] followed by
    [.replace(/```sql\n?/g, '').replace(/```\n?/g, '').trim()]. *)
Definition cleanSql (text : jsstring) : jsstring :=
  trim (removeAll (literalOptLF FENCE) 0
          (removeAll (literalOptLF FENCE_SQL) 0 (trim text))).

(** The number of backticks a string starts with. *)
Fixpoint ticks (s : jsstring) : nat :=
  match s with
  | [] => 0
  | c :: r => if N.eqb 96 c then S (ticks r) else 0
  end.

(** [String(n)] for a non-negative integer such as [results.length]. *)
Definition decimal (n : nat) : jsstring :=
  js (NilEmpty.string_of_uint (Nat.to_uint n)).

(** [lines.join('\n')]: the lines of a template literal. *)
Fixpoint joinLF (ls : list jsstring) : jsstring :=
  match ls with
  | [] => []
  | [l] => l
  | l :: rest => l ++ LF :: joinLF rest
  end.

(** Truthiness of a value that is a string, [null] or [undefined]:
    only a non-empty string is truthy. *)
Definition truthy (o : option jsstring) : bool :=
  match o with
  | Some (_ :: _) => true
  | _ => false
  end.

(** [a || b] on such values. *)
Definition orElse (o : option jsstring) (d : jsstring) : jsstring :=
  match o with
  | Some (c :: r) => c :: r
  | _ => d
  end.

(* ================================================================== *)
(** * Results, errors and effects *)
(* ================================================================== *)

(** The completion of a call: a value, or a thrown [Error] of which only
    the [message] is ever read. *)
Inductive Outcome (A : Type) : Type :=
| Ok (a : A)
| Throw (message : jsstring).
Arguments Ok {A} a.
Arguments Throw {A} message.

(** [process.env], as far as the services read it. *)
Record Env := {
  GEMINI_API_KEY : option jsstring;
  GEMINI_MODEL_NAME : option jsstring;
  BIGQUERY_PROJECT_ID : option jsstring;
  BIGQUERY_DATASET : option jsstring;
  BIGQUERY_LOCATION : option jsstring
}.

(** A column of [metadata.schema.fields]. *)
Record Field := {
  f_name : jsstring;
  f_type : jsstring;
  f_mode : option jsstring;
  f_description : option jsstring
}.

(** What [table.getMetadata()] yields, as far as it is read. *)
Record TableMeta := {
  m_fields : list Field;
  m_description : option jsstring
}.

(** The object built by [getTableSchema]. *)
Record TableSchema := {
  tableName : jsstring;
  schema : list Field;
  description : jsstring
}.

(** Values a JSON request body can hold in its [message] property.  Of a
    number only its type and whether it is zero are ever looked at. *)
Inductive JsValue :=
| VUndefined
| VNull
| VBool (b : bool)
| VNumber (n : N)
| VString (s : jsstring)
| VObject.

(** [req.body]: [undefined], [null], or a value whose [message] property can
    be read ([VUndefined] when the property is absent). *)
Inductive ReqBody :=
| BodyUndefined
| BodyNull
| BodyWith (message : JsValue).

(** The singleton of gemini.js. *)
Record GeminiService := {
  genAI : option jsstring;          (* the client, holding the API key *)
  model : option jsstring;          (* the generative model, by name *)
  gemini_initialized : bool
}.

(** The singleton of bigquery.js. *)
Record BigQueryService := {
  bigquery : option jsstring;       (* the client, holding the project id *)
  datasetId : option jsstring;
  datasetLocation : option jsstring;
  bigquery_initialized : bool
}.

Definition newGeminiService : GeminiService :=
  {| genAI := None; model := None; gemini_initialized := false |}.

Definition newBigQueryService : BigQueryService :=
  {| bigquery := None; datasetId := None; datasetLocation := None;
     bigquery_initialized := false |}.

Section Backend.

(** A result row of the warehouse: an object the backend never inspects. *)
Variable Row : Type.

(** What is observable of a run: the service methods the route handler
    invokes, and the requests that leave the process. *)
Inductive Event :=
| CallGetAllTableSchemas
| CallGetDatasetId
| CallGenerateSQL (userQuery : jsstring) (tableSchemas : list TableSchema)
                  (dataset : option jsstring)
| CallExecuteQuery (query : jsstring)
| CallExplainResults (userQuery sqlQuery : jsstring) (results : list Row)
| RemoteGetTables (dataset : jsstring)
| RemoteTableMetadata (dataset table : jsstring)
| RemoteDatasetMetadata (dataset : jsstring)
| RemoteQuery (query location : jsstring)
| RemoteGenerateContent (modelName prompt : jsstring).

(** The trace of a process, most recent event first. *)
Definition Trace := list Event.

(** The external collaborators.  An answer may depend on everything that
    happened before the request, so that the same request can be answered
    differently at different times. *)
Record Remote := {
  (* [dataset.getTables()], mapped to the table ids *)
  listTables : Trace -> jsstring -> Outcome (list jsstring);
  (* [table.getMetadata()] *)
  getTableMetadata : Trace -> jsstring -> jsstring -> Outcome TableMeta;
  (* [dataset.getMetadata()], read at [.location] *)
  getDatasetMetadata : Trace -> jsstring -> Outcome (option jsstring);
  (* [createQueryJob] followed by [job.getQueryResults()] *)
  execute : Trace -> jsstring -> jsstring -> Outcome (list Row);
  (* [model.generateContent(prompt)] read at [.response.text()] *)
  generate : Trace -> jsstring -> jsstring -> Outcome jsstring
}.

(** The parts of the JavaScript runtime whose tables are not in the
    sources: the Unicode upper-case mapping of a code point, of which
    [toUpperCase] is the concatenation, [JSON.stringify] on rows, and the
    wording of the [TypeError] of a failed destructuring. *)
Record Runtime := {
  toUpper : N -> list N;
  JSON_stringify : list Row -> Outcome jsstring;
  destructureError : ReqBody -> jsstring
}.

(** [s.toUpperCase()] *)
Definition toUpperCase (rt : Runtime) (s : jsstring) : jsstring :=
  flat_map (toUpper rt) s.

(** The state of the process: the two service singletons, and the trace. *)
Record World := {
  geminiService : GeminiService;
  bigqueryService : BigQueryService;
  trace : Trace
}.

(** The process at startup, before any request. *)
Definition startup : World :=
  {| geminiService := newGeminiService;
     bigqueryService := newBigQueryService;
     trace := [] |}.

(** A computation runs on the state of the process and completes with a
    value or an exception; the state survives a throw. *)
Definition M (A : Type) : Type := World -> Outcome A * World.

Definition ret {A} (a : A) : M A := fun w => (Ok a, w).

Definition throw {A} (message : jsstring) : M A := fun w => (Throw message, w).

Definition bind {A B} (c : M A) (k : A -> M B) : M B :=
  fun w =>
    match c w with
    | (Ok a, w') => k a w'
    | (Throw e, w') => (Throw e, w')
    end.

(** [try { c } catch (error) { h error.message }] *)
Definition tryCatch {A} (c : M A) (h : jsstring -> M A) : M A :=
  fun w =>
    match c w with
    | (Ok a, w') => (Ok a, w')
    | (Throw e, w') => h e w'
    end.

Definition getGemini : M GeminiService := fun w => (Ok (geminiService w), w).

Definition getBigQuery : M BigQueryService := fun w => (Ok (bigqueryService w), w).

Definition putGemini (g : GeminiService) : M unit :=
  fun w => (Ok tt, {| geminiService := g; bigqueryService := bigqueryService w;
                      trace := trace w |}).

Definition putBigQuery (b : BigQueryService) : M unit :=
  fun w => (Ok tt, {| geminiService := geminiService w; bigqueryService := b;
                      trace := trace w |}).

(** Records an event. *)
Definition emit (e : Event) : M unit :=
  fun w => (Ok tt, {| geminiService := geminiService w;
                      bigqueryService := bigqueryService w;
                      trace := e :: trace w |}).

(** An awaited request to a collaborator: it is answered from the history
    before it, and recorded.  The request and the settling of its promise
    are one step here: the caller is resumed before anything else runs in
    the process.  Calls that overlap are built from [request] and [settled]
    below, which take the two apart. *)
Definition await {A} (answer : Trace -> Outcome A) (e : Event) : M A :=
  fun w => (answer (trace w),
            {| geminiService := geminiService w;
               bigqueryService := bigqueryService w;
               trace := e :: trace w |}).

(** A request to a collaborator leaves the process: it is recorded, and the
    promise it returns is represented by what it settles to, which the
    history before the request decides. *)
Definition request {A} (answer : Trace -> Outcome A) (e : Event)
    : M (Outcome A) :=
  fun w => (Ok (answer (trace w)),
            {| geminiService := geminiService w;
               bigqueryService := bigqueryService w;
               trace := e :: trace w |}).

(** [await promise], when the caller is resumed: the value of the promise,
    or its rejection, thrown. *)
Definition settled {A} (promise : Outcome A) : M A :=
  fun w => (promise, w).

Notation "x <- c ;; k" := (bind c (fun x => k))
  (at level 61, c at next level, right associativity).
Notation "c ;;; k" := (bind c (fun _ => k))
  (at level 61, right associativity).

Variable rt : Runtime.
Variable env : Env.
Variable remote : Remote.

(* ------------------------------------------------------------------ *)
(** ** bigquery.js *)
(* ------------------------------------------------------------------ *)

(** [BigQueryService._initialize] *)
Definition BigQueryService_initialize : M unit :=
  b <- getBigQuery ;;
  if bigquery_initialized b then ret tt
  else if negb (truthy (BIGQUERY_PROJECT_ID env)) then
    throw (js "BIGQUERY_PROJECT_ID environment variable is not set")
  else if negb (truthy (BIGQUERY_DATASET env)) then
    throw (js "BIGQUERY_DATASET environment variable is not set")
  else
    putBigQuery
      {| bigquery := BIGQUERY_PROJECT_ID env;
         datasetId := BIGQUERY_DATASET env;
         datasetLocation :=
           if truthy (BIGQUERY_LOCATION env) then BIGQUERY_LOCATION env else None;
         bigquery_initialized := true |}.

(** [this.bigquery.dataset(this.datasetId)]: the handle needs the client
    and the dataset id; without them the expression throws (the wording of
    that error is the engine's). *)
Definition dataset : M jsstring :=
  b <- getBigQuery ;;
  match bigquery b, datasetId b with
  | Some _, Some d => ret d
  | _, _ => throw (js "Cannot read properties of null (reading 'dataset')")
  end.

(** [this.datasetLocation = l] *)
Definition setDatasetLocation (l : jsstring) : M unit :=
  b <- getBigQuery ;;
  putBigQuery
    {| bigquery := bigquery b;
       datasetId := datasetId b;
       datasetLocation := Some l;
       bigquery_initialized := bigquery_initialized b |}.

(** [BigQueryService._getDatasetLocation] *)
Definition _getDatasetLocation : M jsstring :=
  b <- getBigQuery ;;
  match datasetLocation b with
  | Some (c :: r) => ret (c :: r)
  | _ =>
      tryCatch
        (d <- dataset ;;
         location <- await (fun t => getDatasetMetadata remote t d)
                           (RemoteDatasetMetadata d) ;;
         setDatasetLocation (orElse location (js "US")) ;;;
         ret (orElse location (js "US")))
        (fun _ =>
           setDatasetLocation (js "US") ;;;
           ret (js "US"))
  end.

(** [BigQueryService.executeQuery] *)
Definition executeQuery (query : jsstring) : M (list Row) :=
  emit (CallExecuteQuery query) ;;;
  BigQueryService_initialize ;;;
  tryCatch
    (location <- _getDatasetLocation ;;
     await (fun t => execute remote t query location)
           (RemoteQuery query location))
    (fun e => throw (js "BigQuery execution failed: " ++ e)).

(** *** Calls of [executeQuery] that overlap

    Between the [await]s of a call other calls run.  A call is taken apart
    at its [await]s: what it does when it is made, up to the first of
    them, and what it does each time it is resumed. *)

(** [_getDatasetLocation] up to its [await] (lines 50-56): the location
    when it returns one at once, or the promise of [getMetadata]. *)
Definition _getDatasetLocation_called
    : M (jsstring + Outcome (option jsstring)) :=
  b <- getBigQuery ;;
  match datasetLocation b with
  | Some (c :: r) => ret (inl (c :: r))
  | _ =>
      tryCatch
        (d <- dataset ;;
         promise <- request (fun t => getDatasetMetadata remote t d)
                            (RemoteDatasetMetadata d) ;;
         ret (inr promise))
        (fun _ =>
           setDatasetLocation (js "US") ;;;
           ret (inl (js "US")))
  end.

(** [_getDatasetLocation] from its [await] on (lines 56-63). *)
Definition _getDatasetLocation_resumed (promise : Outcome (option jsstring))
    : M jsstring :=
  tryCatch
    (location <- settled promise ;;
     setDatasetLocation (orElse location (js "US")) ;;;
     ret (orElse location (js "US")))
    (fun _ =>
       setDatasetLocation (js "US") ;;;
       ret (js "US")).

(** A call of [executeQuery] that is suspended, with what it waits for:
    the metadata of the dataset, inside [_getDatasetLocation]; the location
    that [_getDatasetLocation] has returned; or the rows. *)
Inductive Suspended :=
| AwaitsMetadata (query : jsstring) (promise : Outcome (option jsstring))
| AwaitsLocation (query location : jsstring)
| AwaitsRows (query : jsstring) (promise : Outcome (list Row)).

(** [executeQuery] when it is called, up to its first [await] (lines
    72-75). *)
Definition executeQuery_called (query : jsstring) : M Suspended :=
  emit (CallExecuteQuery query) ;;;
  BigQueryService_initialize ;;;
  tryCatch
    (l <- _getDatasetLocation_called ;;
     ret (match l with
          | inl location => AwaitsLocation query location
          | inr promise => AwaitsMetadata query promise
          end))
    (fun e => throw (js "BigQuery execution failed: " ++ e)).

(** [executeQuery] when it is resumed, up to its next [await] or to its
    end (lines 56-63 and 75-89). *)
Definition executeQuery_resumed (s : Suspended) : M (Suspended + list Row) :=
  tryCatch
    (match s with
     | AwaitsMetadata query promise =>
         location <- _getDatasetLocation_resumed promise ;;
         ret (inl (AwaitsLocation query location))
     | AwaitsLocation query location =>
         promise <- request (fun t => execute remote t query location)
                            (RemoteQuery query location) ;;
         ret (inl (AwaitsRows query promise))
     | AwaitsRows query promise =>
         rows <- settled promise ;;
         ret (inr rows)
     end)
    (fun e => throw (js "BigQuery execution failed: " ++ e)).

(** A suspended call that is resumed, up to [n] times, with nothing else
    running in between. *)
Fixpoint resumedAtOnce (n : nat) (s : Suspended) : M (Suspended + list Row) :=
  match n with
  | 0 => ret (inl s)
  | S n' =>
      r <- executeQuery_resumed s ;;
      match r with
      | inl s' => resumedAtOnce n' s'
      | inr rows => ret (inr rows)
      end
  end.

(** A process in which calls of [executeQuery] are under way: its state,
    and the calls that are suspended. *)
Record Process := {
  world : World;
  suspended : list Suspended
}.

(** What happens next in such a process: [executeQuery] is called and runs
    to its first [await], or the suspended call at position [i] is resumed
    and runs to its next [await] or to its end. *)
Inductive Turn :=
| Called (query : jsstring)
| Resumed (i : nat).

Definition turn (t : Turn) (p : Process) : Process :=
  match t with
  | Called query =>
      match executeQuery_called query (world p) with
      | (Ok s, w) => {| world := w; suspended := suspended p ++ [s] |}
      | (Throw _, w) => {| world := w; suspended := suspended p |}
      end
  | Resumed i =>
      match nth_error (suspended p) i with
      | None => p
      | Some s =>
          match executeQuery_resumed s (world p) with
          | (Ok (inl s'), w) =>
              {| world := w;
                 suspended := firstn i (suspended p)
                              ++ s' :: skipn (S i) (suspended p) |}
          | (_, w) =>
              {| world := w;
                 suspended := firstn i (suspended p)
                              ++ skipn (S i) (suspended p) |}
          end
      end
  end.

(** The process after these turns. *)
Definition turns (ts : list Turn) (p : Process) : Process :=
  fold_left (fun p t => turn t p) ts p.

(** A suspended call that has the location [l] or will read it from the
    store: it is not waiting for the metadata. *)
Definition located (l : jsstring) (s : Suspended) : Prop :=
  match s with
  | AwaitsMetadata _ _ => False
  | AwaitsLocation _ location => location = l
  | AwaitsRows _ _ => True
  end.

(** [BigQueryService.getTableSchema] *)
Definition getTableSchema (name : jsstring) : M TableSchema :=
  BigQueryService_initialize ;;;
  tryCatch
    (d <- dataset ;;
     metadata <- await (fun t => getTableMetadata remote t d name)
                       (RemoteTableMetadata d name) ;;
     ret {| tableName := name;
            schema := m_fields metadata;
            description := orElse (m_description metadata) [] |})
    (fun e => throw (js "Failed to get table schema: " ++ e)).

(** [BigQueryService.getTables] *)
Definition getTables : M (list jsstring) :=
  BigQueryService_initialize ;;;
  tryCatch
    (d <- dataset ;;
     await (fun t => listTables remote t d) (RemoteGetTables d))
    (fun e => throw (js "Failed to get tables: " ++ e)).

(** [Promise.all] over calls that are all started, in order, whether or not
    an earlier one fails.  Of several failures the first in order is
    reported here (in the program: the first in time); the route handler
    reads no more of it than that there was one. *)
Fixpoint promiseAll {A} (cs : list (M A)) : M (list A) :=
  match cs with
  | [] => ret []
  | c :: rest =>
      fun w =>
        let (r, w1) := c w in
        let (rs, w2) := promiseAll rest w1 in
        (match r, rs with
         | Throw e, _ => Throw e
         | Ok _, Throw e => Throw e
         | Ok a, Ok l => Ok (a :: l)
         end, w2)
  end.

(** [BigQueryService.getAllTableSchemas] *)
Definition getAllTableSchemas : M (list TableSchema) :=
  emit CallGetAllTableSchemas ;;;
  tryCatch
    (tables <- getTables ;;
     promiseAll (map getTableSchema tables))
    (fun e => throw (js "Failed to get all table schemas: " ++ e)).

(** [BigQueryService.getDatasetId] *)
Definition getDatasetId : M (option jsstring) :=
  emit CallGetDatasetId ;;;
  BigQueryService_initialize ;;;
  b <- getBigQuery ;;
  ret (datasetId b).

(* ------------------------------------------------------------------ *)
(** ** gemini.js *)
(* ------------------------------------------------------------------ *)

(** [GeminiService._initialize] *)
Definition GeminiService_initialize : M unit :=
  g <- getGemini ;;
  if gemini_initialized g then ret tt
  else if negb (truthy (GEMINI_API_KEY env)) then
    throw (js "GEMINI_API_KEY environment variable is not set")
  else
    putGemini
      {| genAI := GEMINI_API_KEY env;
         model := Some (orElse (GEMINI_MODEL_NAME env) (js "gemini-2.5-flash"));
         gemini_initialized := true |}.

(** [this.model.generateContent(prompt)], awaited and read at
    [.response.text()]; without a model the expression throws. *)
Definition generateContent (prompt : jsstring) : M jsstring :=
  g <- getGemini ;;
  match model g with
  | Some m => await (fun t => generate remote t m prompt)
                    (RemoteGenerateContent m prompt)
  | None => throw (js "Cannot read properties of null (reading 'generateContent')")
  end.

(** One column line of the schema context. *)
Definition fieldLine (field : Field) : jsstring :=
  js "  - " ++ f_name field ++ js " (" ++ f_type field
  ++ match f_mode field with
     | Some (c :: r) => js ", " ++ c :: r
     | _ => []
     end
  ++ js ")"
  ++ match f_description field with
     | Some (c :: r) => js ": " ++ c :: r
     | _ => []
     end
  ++ [LF].

(** The text one table adds to the schema context. *)
Definition tableBlock (dataset : option jsstring) (t : TableSchema) : jsstring :=
  [LF] ++ js "Table: "
  ++ match dataset with
     | Some (c :: r) => (c :: r) ++ js "." ++ tableName t
     | _ => tableName t
     end
  ++ [LF]
  ++ match description t with
     | _ :: _ => js "Description: " ++ description t ++ [LF]
     | [] => []
     end
  ++ js "Columns:" ++ [LF]
  ++ flat_map fieldLine (schema t).

Definition schemaContext (tableSchemas : list TableSchema)
    (dataset : option jsstring) : jsstring :=
  match tableSchemas with
  | [] => []
  | _ :: _ =>
      [LF; LF] ++ js "Available tables and their schemas:" ++ [LF]
      ++ flat_map (tableBlock dataset) tableSchemas
  end.

Definition datasetInstruction (dataset : option jsstring) : jsstring :=
  match dataset with
  | Some (c :: r) =>
      [LF] ++ js "CRITICAL: All table names MUST be qualified with the dataset name "
      ++ [DQUOTE] ++ (c :: r) ++ [DQUOTE] ++ js ". Use the format "
      ++ [DQUOTE] ++ (c :: r) ++ js ".table_name" ++ [DQUOTE]
      ++ js " for all table references."
  | _ => []
  end.

(** The prompt of [generateSQL]. *)
Definition sqlPrompt (userQuery : jsstring) (tableSchemas : list TableSchema)
    (dataset : option jsstring) : jsstring :=
  joinLF
    [ js "You are a SQL expert assistant. Convert the following natural language query into a valid BigQuery SQL query.";
      [];
      schemaContext tableSchemas dataset ++ datasetInstruction dataset;
      [];
      js "Important guidelines:";
      js "1. Generate ONLY the SQL query, no explanations or markdown formatting";
      js "2. Use standard BigQuery SQL syntax";
      js "3. For exploratory queries, use appropriate aggregations (COUNT, SUM, AVG, etc.)";
      js "4. For predefined queries, follow the exact requirements";
      js "5. Always use proper table and column names from the schema provided";
      js "6. Include appropriate WHERE clauses when filtering is mentioned";
      js "7. Use LIMIT clause when appropriate to prevent large result sets";
      js "8. Format dates and timestamps properly if needed";
      js "9. ALWAYS qualify table names with the dataset name using the format: dataset.table_name";
      [];
      js "User query: " ++ userQuery;
      [];
      js "SQL Query:" ].

(** [GeminiService.generateSQL] *)
Definition generateSQL (userQuery : jsstring) (tableSchemas : list TableSchema)
    (dataset : option jsstring) : M jsstring :=
  emit (CallGenerateSQL userQuery tableSchemas dataset) ;;;
  GeminiService_initialize ;;;
  tryCatch
    (text <- generateContent (sqlPrompt userQuery tableSchemas dataset) ;;
     ret (cleanSql text))
    (fun e => throw (js "Failed to generate SQL: " ++ e)).

(** [results.length > 0 ? `Found ... Sample data: ...` : 'No results found.'];
    [JSON.stringify] may throw. *)
Definition resultsSummary (results : list Row) : M jsstring :=
  match results with
  | [] => ret (js "No results found.")
  | _ :: _ =>
      match JSON_stringify rt (firstn 3 results) with
      | Ok sample =>
          ret (js "Found " ++ decimal (List.length results)
               ++ js " result(s). Sample data: " ++ sample)
      | Throw e => throw e
      end
  end.

(** The prompt of [explainResults]. *)
Definition explainPrompt (userQuery sqlQuery summary : jsstring) : jsstring :=
  joinLF
    [ js "The user asked: " ++ [DQUOTE] ++ userQuery ++ [DQUOTE];
      js "The SQL query executed was: " ++ sqlQuery;
      summary;
      [];
      js "Provide a brief, conversational explanation of the results. Keep it concise and user-friendly. Do not end with a period unless necessary." ].

(** [GeminiService.explainResults] *)
Definition explainResults (userQuery sqlQuery : jsstring) (results : list Row)
    : M jsstring :=
  emit (CallExplainResults userQuery sqlQuery results) ;;;
  GeminiService_initialize ;;;
  tryCatch
    (summary <- resultsSummary results ;;
     text <- generateContent (explainPrompt userQuery sqlQuery summary) ;;
     let explanation := trim text in
     ret (if endsWith [DOT] explanation then dropLast explanation
          else explanation))
    (fun _ => ret (js "Query executed successfully.")).

(* ------------------------------------------------------------------ *)
(** ** routes/chat.js *)
(* ------------------------------------------------------------------ *)

(** The JSON document of a response: an error document with its optional
    [details] and [generatedQuery], or the document of a served request
    (the one with [success: true]). *)
Inductive Payload :=
| Failure (error : jsstring) (details generatedQuery : option jsstring)
| Success (userQuery sqlQuery explanation : jsstring)
          (results : list Row) (resultCount : nat).

(** [res.status(code).json(payload)]; [res.json(payload)] sends 200. *)
Record Response := {
  status : nat;
  payload : Payload
}.

(** [!v] *)
Definition falsy (v : JsValue) : bool :=
  match v with
  | VUndefined | VNull => true
  | VBool b => negb b
  | VNumber n => N.eqb n 0
  | VString s => match s with [] => true | _ :: _ => false end
  | VObject => false
  end.

(** [typeof v !== 'string'] *)
Definition notString (v : JsValue) : bool :=
  match v with
  | VString _ => false
  | _ => true
  end.

(** The string a value is once it is known to be one. *)
Definition asString (v : JsValue) : jsstring :=
  match v with
  | VString s => s
  | _ => []
  end.

(** [!message || typeof message !== 'string' || message.trim().length === 0] *)
Definition rejected (message : JsValue) : bool :=
  falsy message || notString message
  || Nat.eqb (List.length (trim (asString message))) 0.

(** [const { message } = req.body] *)
Definition destructure (body : ReqBody) : M JsValue :=
  match body with
  | BodyWith message => ret message
  | _ => throw (destructureError rt body)
  end.

Definition SELECT : jsstring := js "SELECT".

(** [res.json(document)] for the document of a served request (lines
    230-237).  Express serializes the document with [JSON.stringify] before
    it sends anything.  The strings and the count of the document always
    serialize, so that the call throws where [JSON.stringify] throws on the
    rows, with that error; the handler is then still inside its outer
    [try].  The error documents hold strings only: sending them does not
    throw. *)
Definition res_json (response : Response) (results : list Row) : M Response :=
  match JSON_stringify rt results with
  | Ok _ => ret response
  | Throw e => throw e
  end.

(** From the explanation on (lines 220-237). *)
Definition respond (message sqlQuery : jsstring) (results : list Row)
    : M Response :=
  explanation <-
    tryCatch (explainResults message sqlQuery results)
      (fun _ => ret (js "Query executed successfully. Found "
                     ++ decimal (List.length results) ++ js " result(s).")) ;;
  res_json {| status := 200;
              payload := Success message sqlQuery explanation results
                                 (List.length results) |}
           results.

(** From the check of the generated query on (lines 190-218). *)
Definition gateAndExecute (message sqlQuery : jsstring) : M Response :=
  if Nat.eqb (List.length sqlQuery) 0
     || Nat.eqb (List.length (trim sqlQuery)) 0 then
    ret {| status := 500;
           payload := Failure (js "Generated SQL query is empty") None None |}
  else
    let trimmedQuery := toUpperCase rt (trim sqlQuery) in
    if negb (includes SELECT trimmedQuery) then
      ret {| status := 400;
             payload := Failure
                          (js "Only SELECT queries are allowed for security reasons")
                          None (Some sqlQuery) |}
    else
      r <- tryCatch
             (results <- executeQuery sqlQuery ;; ret (inl results))
             (fun e =>
                ret (inr {| status := 500;
                            payload := Failure
                                         (js "Failed to execute query on BigQuery")
                                         (Some e) (Some sqlQuery) |})) ;;
      match r with
      | inl results => respond message sqlQuery results
      | inr response => ret response
      end.

(** The content of the [try] block of lines 180-183. *)
Definition generateQuery (message : jsstring) (tableSchemas : list TableSchema)
    : M jsstring :=
  dataset <- getDatasetId ;;
  generateSQL message tableSchemas dataset.

(** From the generation of the query on (lines 178-188). *)
Definition synthesize (message : jsstring) (tableSchemas : list TableSchema)
    : M Response :=
  r <- tryCatch
         (sqlQuery <- generateQuery message tableSchemas ;; ret (inl sqlQuery))
         (fun e =>
            ret (inr {| status := 500;
                        payload := Failure (js "Failed to generate SQL query")
                                           (Some e) None |})) ;;
  match r with
  | inl sqlQuery => gateAndExecute message sqlQuery
  | inr response => ret response
  end.

(** Lines 170-176: the schema context, empty when it cannot be fetched. *)
Definition fetchSchemas : M (list TableSchema) :=
  tryCatch getAllTableSchemas (fun _ => ret []).

(** The body of the handler's outer [try]. *)
Definition chatBody (body : ReqBody) : M Response :=
  message <- destructure body ;;
  if rejected message then
    ret {| status := 400;
           payload := Failure
                        (js "Message is required and must be a non-empty string")
                        None None |}
  else
    tableSchemas <- fetchSchemas ;;
    synthesize (asString message) tableSchemas.

(** The outer [catch] of the handler (lines 238-244): whatever the body
    throws becomes a response. *)
Definition catchAll (c : M Response) (w : World) : Response * World :=
  match c w with
  | (Ok response, w') => (response, w')
  | (Throw e, w') =>
      ({| status := 500;
          payload := Failure (js "Internal server error") (Some e) None |}, w')
  end.

(** [router.post('/chat', ...)]: the response sent for a request, and the
    process after it. *)
Definition chat (body : ReqBody) : World -> Response * World :=
  catchAll (chatBody body).

(** The entry points through which a running process uses the services:
    the route, and the public methods of the two singletons. *)
Inductive ServiceCall :=
| Chat (body : ReqBody)
| ExecuteQuery (query : jsstring)
| GetTableSchema (name : jsstring)
| GetTables
| GetAllTableSchemas
| GetDatasetId
| GenerateSQL (userQuery : jsstring) (tableSchemas : list TableSchema)
              (dataset : option jsstring)
| ExplainResults (userQuery sqlQuery : jsstring) (results : list Row).

(** The process after a call that ran to completion. *)
Definition perform (c : ServiceCall) (w : World) : World :=
  match c with
  | Chat body => snd (chat body w)
  | ExecuteQuery query => snd (executeQuery query w)
  | GetTableSchema name => snd (getTableSchema name w)
  | GetTables => snd (getTables w)
  | GetAllTableSchemas => snd (getAllTableSchemas w)
  | GetDatasetId => snd (getDatasetId w)
  | GenerateSQL userQuery tableSchemas dataset =>
      snd (generateSQL userQuery tableSchemas dataset w)
  | ExplainResults userQuery sqlQuery results =>
      snd (explainResults userQuery sqlQuery results w)
  end.

(** The process after a sequence of calls, one after the other. *)
Definition performAll (cs : list ServiceCall) (w : World) : World :=
  fold_left (fun w c => perform c w) cs w.

(** How many of the events of a trace satisfy [p]. *)
Definition count (p : Event -> bool) (t : Trace) : nat :=
  List.length (filter p t).

Definition isExecution (e : Event) : bool :=
  match e with
  | CallExecuteQuery _ | RemoteQuery _ _ => true
  | _ => false
  end.

Definition isDatasetMetadata (e : Event) : bool :=
  match e with
  | RemoteDatasetMetadata _ => true
  | _ => false
  end.

(** [Keeps IG IB P c]: started with the two services in states satisfying
    [IG] and [IB], the computation [c] leaves them in such states, and
    records only events that satisfy [P]. *)
Definition Keeps {A} (IG : GeminiService -> Prop) (IB : BigQueryService -> Prop)
    (P : Event -> bool) (c : M A) : Prop :=
  forall w r w',
    IG (geminiService w) -> IB (bigqueryService w) -> c w = (r, w') ->
    IG (geminiService w') /\ IB (bigqueryService w') /\
    exists evs, trace w' = evs ++ trace w /\ forallb P evs = true.

(** The state of the generation service once it is initialized from the
    environment (the object written by [_initialize]). *)
Definition initializedGemini : GeminiService :=
  {| genAI := GEMINI_API_KEY env;
     model := Some (orElse (GEMINI_MODEL_NAME env) (js "gemini-2.5-flash"));
     gemini_initialized := true |}.

(** The state of the warehouse service once it is initialized from the
    environment (the object written by [_initialize]). *)
Definition initializedBigQuery : BigQueryService :=
  {| bigquery := BIGQUERY_PROJECT_ID env;
     datasetId := BIGQUERY_DATASET env;
     datasetLocation :=
       if truthy (BIGQUERY_LOCATION env) then BIGQUERY_LOCATION env else None;
     bigquery_initialized := true |}.

(** The first required variable that [process.env] lacks, in the order in
    which handling a request comes to check them. *)
Definition missingVariable : option jsstring :=
  if negb (truthy (BIGQUERY_PROJECT_ID env)) then Some (js "BIGQUERY_PROJECT_ID")
  else if negb (truthy (BIGQUERY_DATASET env)) then Some (js "BIGQUERY_DATASET")
  else if negb (truthy (GEMINI_API_KEY env)) then Some (js "GEMINI_API_KEY")
  else None.

(** The warehouse service with another stored location. *)
Definition withLocationOf (b : BigQueryService) (l : jsstring) : BigQueryService :=
  {| bigquery := bigquery b;
     datasetId := datasetId b;
     datasetLocation := Some l;
     bigquery_initialized := bigquery_initialized b |}.

End Backend.

Arguments startup {Row}.
Arguments CallGetAllTableSchemas {Row}.
Arguments CallGetDatasetId {Row}.
Arguments GetTables {Row}.
Arguments GetAllTableSchemas {Row}.
Arguments GetDatasetId {Row}.
Arguments CallGenerateSQL {Row}.
Arguments CallExecuteQuery {Row}.
Arguments RemoteGetTables {Row}.
Arguments RemoteTableMetadata {Row}.
Arguments RemoteDatasetMetadata {Row}.
Arguments RemoteQuery {Row}.
Arguments RemoteGenerateContent {Row}.
Arguments Failure {Row}.
Arguments ExecuteQuery {Row}.
Arguments GetTableSchema {Row}.
Arguments Chat {Row}.
Arguments GenerateSQL {Row}.
Arguments isExecution {Row} e.
Arguments isDatasetMetadata {Row} e.
Arguments count {Row} p t.

(* ================================================================== *)
(** * A concrete runtime and stub collaborators *)
(* ================================================================== *)

(** Rows with integer cells, such as [{cnt: 42}]. *)
Definition CountRow := list (jsstring * N).

(** The upper-case mapping restricted to ASCII. *)
Definition asciiUpper (c : N) : list N :=
  if (97 <=? c)%N && (c <=? 122)%N then [(c - 32)%N] else [c].

(** [JSON.stringify] on such rows, for keys that need no escaping. *)
Definition stringifyCell (cell : jsstring * N) : jsstring :=
  [DQUOTE] ++ fst cell ++ [DQUOTE] ++ js ":" ++ decimal (N.to_nat (snd cell)).

Fixpoint joinComma (ls : list jsstring) : jsstring :=
  match ls with
  | [] => []
  | [l] => l
  | l :: rest => l ++ js "," ++ joinComma rest
  end.

Definition stringifyRow (row : CountRow) : jsstring :=
  js "{" ++ joinComma (map stringifyCell row) ++ js "}".

Definition stringifyRows (rows : list CountRow) : jsstring :=
  js "[" ++ joinComma (map stringifyRow rows) ++ js "]".

(** The wording of V8. *)
Definition v8DestructureError (body : ReqBody) : jsstring :=
  match body with
  | BodyNull =>
      js "Cannot destructure property 'message' of 'req.body' as it is null."
  | _ =>
      js "Cannot destructure property 'message' of 'req.body' as it is undefined."
  end.

Definition node : Runtime CountRow :=
  {| toUpper := asciiUpper;
     JSON_stringify := fun rows => Ok (stringifyRows rows);
     destructureError := v8DestructureError |}.

(** A complete configuration without a region override. *)
Definition configured : Env :=
  {| GEMINI_API_KEY := Some (js "key");
     GEMINI_MODEL_NAME := None;
     BIGQUERY_PROJECT_ID := Some (js "project");
     BIGQUERY_DATASET := Some (js "dataset");
     BIGQUERY_LOCATION := None |}.

Definition withoutApiKey : Env :=
  {| GEMINI_API_KEY := None;
     GEMINI_MODEL_NAME := None;
     BIGQUERY_PROJECT_ID := Some (js "project");
     BIGQUERY_DATASET := Some (js "dataset");
     BIGQUERY_LOCATION := None |}.

Definition withoutDataset : Env :=
  {| GEMINI_API_KEY := Some (js "key");
     GEMINI_MODEL_NAME := None;
     BIGQUERY_PROJECT_ID := Some (js "project");
     BIGQUERY_DATASET := None;
     BIGQUERY_LOCATION := None |}.

Definition withLocation : Env :=
  {| GEMINI_API_KEY := Some (js "key");
     GEMINI_MODEL_NAME := None;
     BIGQUERY_PROJECT_ID := Some (js "project");
     BIGQUERY_DATASET := Some (js "dataset");
     BIGQUERY_LOCATION := Some (js "europe-west1") |}.

(** Table [orders] with its column [id]. *)
Definition ordersMeta : TableMeta :=
  {| m_fields := [ {| f_name := js "id"; f_type := js "INTEGER";
                      f_mode := Some (js "REQUIRED"); f_description := None |} ];
     m_description := None |}.

(** Stub collaborators answering the same whatever happened before: the
    table list, the text of the model for the SQL prompt and for the
    explanation prompt, and the rows of the warehouse. *)
Definition stub (tables : Outcome (list jsstring))
    (sqlText explanationText : Outcome jsstring)
    (rows : Outcome (list CountRow)) : Remote CountRow :=
  {| listTables := fun _ _ => tables;
     getTableMetadata := fun _ _ _ => Ok ordersMeta;
     getDatasetMetadata := fun _ _ => Ok (Some (js "EU"));
     execute := fun _ _ _ => rows;
     generate := fun _ _ prompt =>
       if startsWith (js "You are a SQL expert assistant.") prompt
       then sqlText else explanationText |}.

(** The collaborators of the end-to-end example; [sqlText] is what the
    model answers to the SQL prompt. *)
Definition answering (sqlText : jsstring) : Remote CountRow :=
  stub (Ok [js "orders"]) (Ok sqlText) (Ok (js "There are 42 orders."))
       (Ok [ [ (js "cnt", 42%N) ] ]).

(** The same with a model that fails on the explanation prompt. *)
Definition unexplained (sqlText : jsstring) : Remote CountRow :=
  stub (Ok [js "orders"]) (Ok sqlText) (Throw (js "quota exceeded"))
       (Ok [ [ (js "cnt", 42%N) ] ]).

(** The same with a schema provider whose table listing fails. *)
Definition unlisted (sqlText : jsstring) : Remote CountRow :=
  stub (Throw (js "access denied")) (Ok sqlText) (Ok (js "There are 42 orders."))
       (Ok [ [ (js "cnt", 42%N) ] ]).

(** The same with a dataset whose metadata are returned for the first
    request and not for the later ones. *)
Definition flaky (sqlText : jsstring) : Remote CountRow :=
  {| listTables := listTables (answering sqlText);
     getTableMetadata := getTableMetadata (answering sqlText);
     getDatasetMetadata := fun t _ =>
       if Nat.eqb (count isDatasetMetadata t) 0 then Ok (Some (js "EU"))
       else Throw (js "socket hang up");
     execute := execute (answering sqlText);
     generate := generate (answering sqlText) |}.

(** Rows whose cells are [BigInt] values, such as [{cnt: 42n}], on which
    [JSON.stringify] throws a [TypeError]; rows without a cell are
    serialized. *)
Definition BigIntRow := list (jsstring * N).

Definition hasNoCell (row : BigIntRow) : bool :=
  match row with
  | [] => true
  | _ :: _ => false
  end.

Definition nodeOnBigInt : Runtime BigIntRow :=
  {| toUpper := asciiUpper;
     JSON_stringify := fun rows =>
       if forallb hasNoCell rows then Ok (stringifyRows rows)
       else Throw (js "Do not know how to serialize a BigInt");
     destructureError := v8DestructureError |}.

Definition countMessage : jsstring := js "Count the rows in table orders".

Definition countSql : jsstring := js "SELECT COUNT(*) AS cnt FROM dataset.orders".

Definition countRows : list CountRow := [ [ (js "cnt", 42%N) ] ].

Definition fencedSql : jsstring :=
  js "```sql" ++ [LF] ++ js "SELECT 1" ++ [LF] ++ js "```".

(* ================================================================== *)
(** * Vocabulary for the properties of the services and the route *)
(* ================================================================== *)

(** The requests that run a query on the warehouse. *)
Definition isRemoteQuery {Row} (e : Event Row) : bool :=
  match e with
  | RemoteQuery _ _ => true
  | _ => false
  end.

(** The requests for the metadata of a table. *)
Definition isTableMetadata {Row} (e : Event Row) : bool :=
  match e with
  | RemoteTableMetadata _ _ => true
  | _ => false
  end.

(** The requests to the model. *)
Definition isGeneration {Row} (e : Event Row) : bool :=
  match e with
  | RemoteGenerateContent _ _ => true
  | _ => false
  end.

(** [catch (error) { throw new Error(`${prefix}${error.message}`) }] on an
    outcome. *)
Definition rethrowAs {A} (prefix : jsstring) (o : Outcome A) : Outcome A :=
  match o with
  | Ok a => Ok a
  | Throw e => Throw (prefix ++ e)
  end.

(** Events among which nothing is executed. *)
Definition quiet {Row} (evs : Trace Row) : Prop :=
  forallb (fun e => negb (isExecution e)) evs = true.

(** Events among which at most one query is sent to the warehouse, and
    then [sql], in a location that is not empty. *)
Definition OnlyQuery {Row} (sql : jsstring) (evs : Trace Row) : Prop :=
  count isRemoteQuery evs <= 1 /\
  forall q l, In (RemoteQuery q l) evs -> q = sql /\ l <> [].

(** What holds of a generated query that has passed the checks of the
    route: it is not empty, is trimmed, contains [SELECT] once upper-cased,
    and contains no fence. *)
Definition Gated {Row} (rt : Runtime Row) (sql : jsstring) : Prop :=
  sql <> [] /\ trim sql = sql /\
  includes SELECT (toUpperCase rt sql) = true /\
  includes FENCE sql = false.

(** The schema object [getTableSchema] builds from the metadata of a
    table. *)
Definition schemaOf (name : jsstring) (metadata : TableMeta) : TableSchema :=
  {| tableName := name;
     schema := m_fields metadata;
     description := orElse (m_description metadata) [] |}.

(** Collaborators whose warehouse fails the query. *)
Definition failingWarehouse : Remote CountRow :=
  stub (Ok [js "orders"]) (Ok countSql) (Ok (js "There are 42 orders."))
       (Throw (js "Not found: Table dataset.orders")).

(** Collaborators whose model fails on every prompt. *)
Definition failingModel : Remote CountRow :=
  stub (Ok [js "orders"]) (Throw (js "quota exceeded"))
       (Throw (js "quota exceeded")) (Ok countRows).

(** The schema of table [orders], as [getTableSchema] builds it. *)
Definition ordersSchema : TableSchema := schemaOf (js "orders") ordersMeta.

(* ================================================================== *)
(** * The client: services/api.js and components/ChatInterface.jsx *)
(* ================================================================== *)

Section Client.

(** Rows as the backend has them, rows as they arrive in the browser, and
    what serializing a row to JSON and parsing it again makes of it. *)
Variable Row : Type.
Variable WireRow : Type.
Variable wire : Row -> WireRow.

(** A JSON document of the backend as it arrives. *)
Definition received (p : Payload Row) : Payload WireRow :=
  match p with
  | Failure error details generatedQuery => Failure error details generatedQuery
  | Success userQuery sqlQuery explanation results resultCount =>
      Success userQuery sqlQuery explanation (map wire results) resultCount
  end.

(** What [fetch] resolves to: the status, and what [response.json()]
    gives. *)
Record HttpResponse := {
  http_status : nat;
  http_json : Outcome (Payload WireRow)
}.

(** [response.ok] *)
Definition ok (response : HttpResponse) : bool :=
  Nat.leb 200 (http_status response) && Nat.leb (http_status response) 299.

(** The properties read from the document: [undefined] on a document
    that lacks them. *)
Definition errorOf (p : Payload WireRow) : option jsstring :=
  match p with
  | Failure error _ _ => Some error
  | Success _ _ _ _ _ => None
  end.

Definition explanationOf (p : Payload WireRow) : option jsstring :=
  match p with
  | Success _ _ explanation _ _ => Some explanation
  | Failure _ _ _ => None
  end.

Definition sqlQueryOf (p : Payload WireRow) : option jsstring :=
  match p with
  | Success _ sqlQuery _ _ _ => Some sqlQuery
  | Failure _ _ _ => None
  end.

Definition resultsOf (p : Payload WireRow) : option (list WireRow) :=
  match p with
  | Success _ _ _ results _ => Some results
  | Failure _ _ _ => None
  end.

Definition resultCountOf (p : Payload WireRow) : option nat :=
  match p with
  | Success _ _ _ _ resultCount => Some resultCount
  | Failure _ _ _ => None
  end.

(** [sendMessage] of api.js, on what [fetch] resolves or rejects with for
    the message. *)
Definition sendMessage (fetch : jsstring -> Outcome HttpResponse)
    (message : jsstring) : Outcome (Payload WireRow) :=
  match fetch message with
  | Throw e => Throw e
  | Ok response =>
      if negb (ok response) then
        match http_json response with
        | Throw e => Throw e
        | Ok errorData =>
            Throw (orElse (errorOf errorData)
                     (js "HTTP error! status: " ++ decimal (http_status response)))
        end
      else http_json response
  end.

(** The route behind [fetch]: the body [{message}] is parsed by the
    server, the response is sent with [res.status(...).json(...)]. *)
Definition served (rt : Runtime Row) (env : Env) (remote : Remote Row)
    (w : World Row) (message : jsstring) : Outcome HttpResponse :=
  let response := fst (chat rt env remote (BodyWith (VString message)) w) in
  Ok {| http_status := status response;
        http_json := Ok (received (payload response)) |}.

(** The [type] of a message of the conversation. *)
Inductive MessageType := TypeUser | TypeAssistant | TypeError.

(** A message of the conversation; a property that a message does not
    have is [None]. *)
Record ClientMessage := {
  id : N;
  type : MessageType;
  content : option jsstring;
  sqlQuery : option jsstring;
  results : option (list WireRow);
  resultCount : option nat;
  timestamp : jsstring
}.

(** The state of the component, and the item [chatMessages] of the local
    storage. *)
Record ChatState := {
  messages : list ClientMessage;
  inputValue : jsstring;
  isLoading : bool;
  stored : option jsstring
}.

(** [JSON.stringify] on the messages. *)
Variable stringify : list ClientMessage -> jsstring.

(** [setMessages(ms)] with the effect that follows the change (lines
    25-29): the messages are stored unless there is none. *)
Definition setMessages (ms : list ClientMessage) (st : ChatState) : ChatState :=
  {| messages := ms;
     inputValue := inputValue st;
     isLoading := isLoading st;
     stored := match ms with
               | [] => stored st
               | _ :: _ => Some (stringify ms)
               end |}.

Definition setInputValue (v : jsstring) (st : ChatState) : ChatState :=
  {| messages := messages st; inputValue := v; isLoading := isLoading st;
     stored := stored st |}.

Definition setIsLoading (b : bool) (st : ChatState) : ChatState :=
  {| messages := messages st; inputValue := inputValue st; isLoading := b;
     stored := stored st |}.

(** The message of the user built by [handleSend]; [now] and [iso] are
    what [Date.now()] and [new Date().toISOString()] give. *)
Definition userMessage (now : N) (iso : jsstring) (text : jsstring)
    : ClientMessage :=
  {| id := now; type := TypeUser; content := Some text; sqlQuery := None;
     results := None; resultCount := None; timestamp := iso |}.

(** The message built from what [sendMessage] returned or threw. *)
Definition replyMessage (now : N) (iso : jsstring)
    (outcome : Outcome (Payload WireRow)) : ClientMessage :=
  match outcome with
  | Ok response =>
      {| id := (now + 1)%N; type := TypeAssistant;
         content := explanationOf response;
         sqlQuery := sqlQueryOf response;
         results := resultsOf response;
         resultCount := resultCountOf response;
         timestamp := iso |}
  | Throw e =>
      {| id := (now + 1)%N; type := TypeError;
         content := Some (orElse (Some e)
                            (js "An error occurred while processing your query."));
         sqlQuery := None; results := None; resultCount := None;
         timestamp := iso |}
  end.

(** [handleSend] up to its [await] (lines 36-56): the message that is
    sent, if one is, and the state the component is left in. *)
Definition submit (now : N) (iso : jsstring) (st : ChatState)
    : option jsstring * ChatState :=
  match trim (inputValue st) with
  | [] => (None, st)
  | c :: r =>
      if isLoading st then (None, st)
      else
        (Some (c :: r),
         setIsLoading true
           (setInputValue []
              (setMessages (messages st ++ [userMessage now iso (c :: r)]) st)))
  end.

(** [handleSend] from the completion of [sendMessage] on (lines 56-80). *)
Definition settle (outcome : Outcome (Payload WireRow)) (now : N)
    (iso : jsstring) (st : ChatState) : ChatState :=
  setIsLoading false
    (setMessages (messages st ++ [replyMessage now iso outcome]) st).

(** [handleSend], when nothing else happens while the request is under
    way. *)
Definition handleSend (fetch : jsstring -> Outcome HttpResponse)
    (now1 : N) (iso1 : jsstring) (now2 : N) (iso2 : jsstring)
    (st : ChatState) : ChatState :=
  match submit now1 iso1 st with
  | (None, st') => st'
  | (Some message, st') => settle (sendMessage fetch message) now2 iso2 st'
  end.

(** [handleClearChat]; [confirmed] is the answer to [window.confirm]. *)
Definition handleClearChat (confirmed : bool) (st : ChatState) : ChatState :=
  if confirmed then
    {| messages := []; inputValue := inputValue st; isLoading := isLoading st;
       stored := None |}
  else st.

(** What can happen to the component, one thing after the other. *)
Inductive Action :=
| Typed (v : jsstring)
| Submitted (now : N) (iso : jsstring)
| Settled (outcome : Outcome (Payload WireRow)) (now : N) (iso : jsstring)
| ClearClicked (confirmed : bool).

Definition act (a : Action) (st : ChatState) : ChatState :=
  match a with
  | Typed v => setInputValue v st
  | Submitted now iso => snd (submit now iso st)
  | Settled outcome now iso => settle outcome now iso st
  | ClearClicked confirmed => handleClearChat confirmed st
  end.

Definition actAll (actions : list Action) (st : ChatState) : ChatState :=
  fold_left (fun st a => act a st) actions st.

(** The component when it is mounted on an empty storage. *)
Definition mounted : ChatState :=
  {| messages := []; inputValue := []; isLoading := false; stored := None |}.

End Client.

Arguments mounted {WireRow}.
Arguments ClearClicked {WireRow} confirmed.
Arguments Typed {WireRow} v.
Arguments Submitted {WireRow} now iso.
Arguments userMessage {WireRow} now iso text.

(** ** The table of results *)

(** [a === b] on strings. *)
Fixpoint jsEqb (a b : jsstring) : bool :=
  match a, b with
  | [], [] => true
  | x :: a', y :: b' => N.eqb x y && jsEqb a' b'
  | _, _ => false
  end.

(** [[...new Set(keys)]], continued from the keys already seen: the keys in
    the order in which they first occur. *)
Fixpoint addAll (seen keys : list jsstring) : list jsstring :=
  match keys with
  | [] => seen
  | k :: rest =>
      if existsb (jsEqb k) seen then addAll seen rest
      else addAll (seen ++ [k]) rest
  end.

(** The dash shown for a missing value. *)
Definition DASH : jsstring := [8212%N].

Section Table.

(** The values of the cells; which of them are [null]; [String(value)];
    and the properties every object inherits, by name. *)
Variable Cell : Type.
Variable isNull : Cell -> bool.
Variable toText : Cell -> jsstring.
Variable inherited : jsstring -> option Cell.

(** A row: its own properties, in the order of [Object.keys]. *)
Definition TableRow := list (jsstring * Cell).

(** [Object.keys(row)] *)
Definition keysOf (row : TableRow) : list jsstring := map fst row.

Fixpoint own (row : TableRow) (key : jsstring) : option Cell :=
  match row with
  | [] => None
  | (k, v) :: rest => if jsEqb k key then Some v else own rest key
  end.

(** [row[key]]; [None] is [undefined]. *)
Definition property (row : TableRow) (key : jsstring) : option Cell :=
  match own row key with
  | Some v => Some v
  | None => inherited key
  end.

(** The text of a cell (lines 113-115). *)
Definition cellText (row : TableRow) (key : jsstring) : jsstring :=
  match property row key with
  | Some v => if isNull v then DASH else toText v
  | None => DASH
  end.

(** What [formatTableData] renders: the paragraph of the empty result, or
    the table with its header, its lines and, when lines are left out,
    the number of results of the note below it. *)
Inductive Rendered :=
| NoResults
| ResultsTable (header : list jsstring) (body : list (list jsstring))
               (limit : option nat).

(** [formatTableData] *)
Definition formatTableData (results : option (list TableRow)) : Rendered :=
  match results with
  | None => NoResults
  | Some [] => NoResults
  | Some (row :: rest) =>
      let allKeys := addAll [] (flat_map keysOf (row :: rest)) in
      ResultsTable allKeys
        (map (fun r => map (cellText r) allKeys) (firstn 100 (row :: rest)))
        (if Nat.ltb 100 (List.length (row :: rest))
         then Some (List.length (row :: rest)) else None)
  end.

End Table.

(** ** A client and a table, for concrete requests *)

(** The rows as the client reads them from the response. *)
Definition asReceived (row : CountRow) : CountRow := row.

(** A serializer of the conversation that writes the [id] of each message,
    one a line. *)
Definition idsOf (ms : list (ClientMessage CountRow)) : jsstring :=
  joinLF (map (fun m => decimal (N.to_nat (id m))) ms).

(** The component with a question typed in. *)
Definition asking : ChatState CountRow :=
  setInputValue (js "  Count the rows in table orders ") mounted.

Definition sentAt : jsstring := js "2024-05-01T10:00:00.000Z".

(** Cells that hold a number or [null], and rows that do not have the
    same keys. *)
Definition isNullCell (c : option N) : bool :=
  match c with
  | Some _ => false
  | None => true
  end.

Definition numberText (c : option N) : jsstring :=
  match c with
  | Some n => decimal (N.to_nat n)
  | None => js "null"
  end.

Definition notInherited (key : jsstring) : option (option N) := None.

Definition raggedRows : list (TableRow (option N)) :=
  [ [ (js "cnt", Some 42%N); (js "name", None) ];
    [ (js "total", Some 7%N); (js "cnt", Some 1%N) ] ].

(* ================================================================== *)
(** * Strings: trimming, searching, fence removal *)
(* ================================================================== *)

Unset Implicit Arguments.

Example cleanSql_fenced : cleanSql fencedSql = js "SELECT 1".
Proof. reflexivity. Qed.

Example cleanSql_inner :
  cleanSql (js "SELECT '```' AS f, '`````sql`' AS g")
  = js "SELECT '' AS f, '' AS g".
Proof. vm_compute. reflexivity. Qed.

Lemma startsWith_app p s t :
  startsWith p s = true -> startsWith p (s ++ t) = true.
Proof.
  revert s; induction p as [|a p IH]; intros [|b s]; simpl; try easy.
  intros H; apply andb_true_iff in H as [-> H]; simpl; auto.
Qed.

Lemma startsWith_prefix p q s :
  startsWith (p ++ q) s = true -> startsWith p s = true.
Proof.
  revert s; induction p as [|a p IH]; intros [|b s]; simpl; try easy.
  intros H; apply andb_true_iff in H as [-> H]; simpl; eauto.
Qed.

Lemma includes_cons p c s :
  includes p (c :: s) = false ->
  startsWith p (c :: s) = false /\ includes p s = false.
Proof. cbn [includes]; intros H; now apply orb_false_iff in H. Qed.

Lemma includes_startsWith p s :
  includes p s = false -> startsWith p s = false.
Proof. destruct s; cbn [includes]; intros H; now apply orb_false_iff in H. Qed.

Lemma includes_app_r p s t : includes p (s ++ t) = false -> includes p t = false.
Proof.
  induction s as [|c s IH]; simpl app; auto.
  intros H; apply includes_cons in H; tauto.
Qed.

Lemma includes_app_l p s t : includes p (s ++ t) = false -> includes p s = false.
Proof.
  induction s as [|c s IH]; simpl app; intros H.
  - apply includes_startsWith in H. destruct p; [discriminate H | reflexivity].
  - apply includes_cons in H as [H1 H2]. cbn [includes].
    rewrite (IH H2), orb_false_r.
    destruct (startsWith p (c :: s)) eqn:E; auto.
    apply startsWith_app with (t := t) in E. simpl app in E. congruence.
Qed.

Lemma includes_longer p q s : includes p s = false -> includes (p ++ q) s = false.
Proof.
  induction s as [|c s IH]; intros H.
  - apply includes_startsWith in H. destruct p; [discriminate H | reflexivity].
  - apply includes_cons in H as [H1 H2]. cbn [includes].
    rewrite (IH H2), orb_false_r.
    destruct (startsWith (p ++ q) (c :: s)) eqn:E; auto.
    apply startsWith_prefix in E. congruence.
Qed.

Lemma trimStart_suffix s : exists ws, s = ws ++ trimStart s.
Proof.
  induction s as [|c s [ws IH]]; simpl.
  - now exists [].
  - destruct (isWhiteSpace c).
    + exists (c :: ws). simpl. now f_equal.
    + now exists [].
Qed.

Lemma trimEnd_prefix s : exists ws, s = trimEnd s ++ ws.
Proof.
  unfold trimEnd. destruct (trimStart_suffix (rev s)) as [ws H].
  exists (rev ws). rewrite <- rev_app_distr, <- H. now rewrite rev_involutive.
Qed.

Lemma includes_trim p s : includes p s = false -> includes p (trim s) = false.
Proof.
  intros H. unfold trim.
  destruct (trimStart_suffix s) as [a Ha].
  destruct (trimEnd_prefix (trimStart s)) as [b Hb].
  rewrite Ha in H. apply includes_app_r in H.
  rewrite Hb in H. now apply includes_app_l in H.
Qed.

Lemma trimStart_idem s : trimStart (trimStart s) = trimStart s.
Proof.
  induction s as [|c s IH]; simpl; auto.
  destruct (isWhiteSpace c) eqn:E; auto. simpl. now rewrite E.
Qed.

Lemma trimStart_head s :
  trimStart s = [] \/
  exists c r, trimStart s = c :: r /\ isWhiteSpace c = false.
Proof.
  induction s as [|c s IH]; simpl; auto.
  destruct (isWhiteSpace c) eqn:E; auto. right; now exists c, s.
Qed.

Lemma trimStart_snoc l c :
  isWhiteSpace c = false -> trimStart (l ++ [c]) = trimStart l ++ [c].
Proof.
  intros H. induction l as [|a l IH]; simpl.
  - now rewrite H.
  - destruct (isWhiteSpace a); auto.
Qed.

Lemma trimEnd_cons c r :
  isWhiteSpace c = false -> trimEnd (c :: r) = c :: trimEnd r.
Proof.
  intros H. unfold trimEnd. simpl rev.
  rewrite trimStart_snoc by assumption.
  now rewrite rev_app_distr.
Qed.

Lemma trimEnd_idem s : trimEnd (trimEnd s) = trimEnd s.
Proof. unfold trimEnd. now rewrite rev_involutive, trimStart_idem. Qed.

Lemma trim_idem s : trim (trim s) = trim s.
Proof.
  unfold trim.
  destruct (trimStart_head s) as [E | (c & r & E & Hc)]; rewrite E.
  - reflexivity.
  - rewrite (trimEnd_cons c r Hc). simpl trimStart. rewrite Hc.
    rewrite <- (trimEnd_cons c r Hc). apply trimEnd_idem.
Qed.

Lemma literalOptLF_spec lit s :
  (startsWith lit s = false /\ literalOptLF lit s = None) \/
  (startsWith lit s = true /\
   exists k, literalOptLF lit s = Some (List.length lit + k)).
Proof.
  unfold literalOptLF. destruct (startsWith lit s); [right | left]; auto.
  split; auto.
  destruct (skipn (List.length lit) s) as [|c r].
  - exists 0. now rewrite Nat.add_0_r.
  - destruct (N.eqb c LF).
    + exists 1. now rewrite Nat.add_1_r.
    + exists 0. now rewrite Nat.add_0_r.
Qed.

Lemma startsWith_FENCE s : startsWith FENCE s = (3 <=? ticks s).
Proof.
  change FENCE with [96; 96; 96]%N.
  destruct s as [|a [|b [|c r]]]; cbn [startsWith ticks];
    repeat (match goal with |- context [N.eqb 96 ?x] => destruct (N.eqb 96 x) end);
    reflexivity.
Qed.

(** What one replacement pass with [/```\n?/g] leaves behind: no fence, and
    as many leading backticks as before where there were fewer than three. *)
Lemma removeAll_FENCE_inv s :
  (forall k, includes FENCE (removeAll (literalOptLF FENCE) k s) = false) /\
  (ticks s < 3 -> ticks (removeAll (literalOptLF FENCE) 0 s) = ticks s).
Proof.
  induction s as [|c r [IH1 IH2]].
  - split; [intros [|k] | intros _]; reflexivity.
  - assert (Keep : startsWith FENCE (c :: r) = false ->
                   includes FENCE (c :: removeAll (literalOptLF FENCE) 0 r) = false
                   /\ ticks (c :: removeAll (literalOptLF FENCE) 0 r) = ticks (c :: r)).
    { intros Hs. rewrite startsWith_FENCE in Hs. apply Nat.leb_gt in Hs.
      assert (Ht : ticks (c :: removeAll (literalOptLF FENCE) 0 r) = ticks (c :: r)).
      { cbn [ticks] in *. destruct (N.eqb 96 c); auto. rewrite IH2; auto. lia. }
      split; auto. cbn [includes]. rewrite IH1, orb_false_r, startsWith_FENCE.
      apply Nat.leb_gt. lia. }
    split.
    + intros [|k]; cbn [removeAll]; auto.
      destruct (literalOptLF_spec FENCE (c :: r)) as [[Hs ->] | [Hs [j ->]]].
      * now apply Keep.
      * change (List.length FENCE + j) with (S (2 + j)). apply IH1.
    + intros Hlt. cbn [removeAll].
      destruct (literalOptLF_spec FENCE (c :: r)) as [[Hs ->] | [Hs _]].
      * now apply Keep.
      * rewrite startsWith_FENCE in Hs. apply Nat.leb_le in Hs. lia.
Qed.

Lemma removeAll_noop lit s :
  includes lit s = false -> removeAll (literalOptLF lit) 0 s = s.
Proof.
  induction s as [|c r IH]; intros H; auto.
  apply includes_cons in H as [H1 H2]. cbn [removeAll].
  unfold literalOptLF at 1. rewrite H1. now rewrite IH.
Qed.

Lemma cleanSql_no_fence text : includes FENCE (cleanSql text) = false.
Proof.
  unfold cleanSql. apply includes_trim. apply (removeAll_FENCE_inv _).
Qed.

Lemma cleanSql_trimmed text : trim (cleanSql text) = cleanSql text.
Proof. unfold cleanSql. apply trim_idem. Qed.

Lemma cleanSql_clean s :
  includes FENCE s = false -> trim s = s -> cleanSql s = s.
Proof.
  intros Hf Ht. unfold cleanSql. rewrite Ht.
  rewrite (removeAll_noop FENCE_SQL s).
  - now rewrite removeAll_noop, Ht.
  - change FENCE_SQL with (FENCE ++ js "sql"). now apply includes_longer.
Qed.

(* ================================================================== *)
(** * The services and the route *)
(* ================================================================== *)

Section BackendProofs.

Variable Row : Type.
Variable rt : Runtime Row.
Variable env : Env.
Variable remote : Remote Row.

(** ** Running the monad *)

Lemma bind_ok {A B} (c : M Row A) (k : A -> M Row B) w a w' :
  c w = (Ok a, w') -> bind c k w = k a w'.
Proof. unfold bind; now intros ->. Qed.

Lemma bind_throw {A B} (c : M Row A) (k : A -> M Row B) w e w' :
  c w = (Throw e, w') -> bind c k w = (Throw e, w').
Proof. unfold bind; now intros ->. Qed.

Lemma tryCatch_ok {A} (c : M Row A) h w a w' :
  c w = (Ok a, w') -> tryCatch c h w = (Ok a, w').
Proof. unfold tryCatch; now intros ->. Qed.

Lemma tryCatch_throw {A} (c : M Row A) h w e w' :
  c w = (Throw e, w') -> tryCatch c h w = h e w'.
Proof. unfold tryCatch; now intros ->. Qed.

(** ** What a computation keeps *)

Create HintDb kept discriminated.

Section Keeping.

Variable IG : GeminiService -> Prop.
Variable IB : BigQueryService -> Prop.
Variable P : Event Row -> bool.

Lemma keeps_ret {A} (a : A) : Keeps IG IB P (ret a).
Proof.
  intros w r w' Hg Hb H; inversion H; subst. repeat split; auto. now exists [].
Qed.

Lemma keeps_throw {A} e : Keeps IG IB P (@throw Row A e).
Proof.
  intros w r w' Hg Hb H; inversion H; subst. repeat split; auto. now exists [].
Qed.

Lemma keeps_bind {A B} (c : M Row A) (k : A -> M Row B) :
  Keeps IG IB P c -> (forall a, Keeps IG IB P (k a)) -> Keeps IG IB P (bind c k).
Proof.
  intros Hc Hk w r w' Hg Hb H. unfold bind in H.
  destruct (c w) as [[a|e] w1] eqn:E;
    destruct (Hc _ _ _ Hg Hb E) as (Hg1 & Hb1 & evs1 & T1 & F1).
  - destruct (Hk a _ _ _ Hg1 Hb1 H) as (Hg2 & Hb2 & evs2 & T2 & F2).
    repeat split; auto. exists (evs2 ++ evs1).
    rewrite T2, T1, app_assoc, forallb_app, F1, F2. auto.
  - inversion H; subst. repeat split; auto. now exists evs1.
Qed.

Lemma keeps_tryCatch {A} (c : M Row A) h :
  Keeps IG IB P c -> (forall e, Keeps IG IB P (h e)) -> Keeps IG IB P (tryCatch c h).
Proof.
  intros Hc Hh w r w' Hg Hb H. unfold tryCatch in H.
  destruct (c w) as [[a|e] w1] eqn:E;
    destruct (Hc _ _ _ Hg Hb E) as (Hg1 & Hb1 & evs1 & T1 & F1).
  - inversion H; subst. repeat split; auto. now exists evs1.
  - destruct (Hh e _ _ _ Hg1 Hb1 H) as (Hg2 & Hb2 & evs2 & T2 & F2).
    repeat split; auto. exists (evs2 ++ evs1).
    rewrite T2, T1, app_assoc, forallb_app, F1, F2. auto.
Qed.

Lemma keeps_emit e : P e = true -> Keeps IG IB P (emit e).
Proof.
  intros Hp w r w' Hg Hb H; inversion H; subst; simpl. repeat split; auto.
  exists [e]; simpl. now rewrite Hp.
Qed.

Lemma keeps_await {A} (answer : Trace Row -> Outcome A) e :
  P e = true -> Keeps IG IB P (await answer e).
Proof.
  intros Hp w r w' Hg Hb H; inversion H; subst; simpl. repeat split; auto.
  exists [e]; simpl. now rewrite Hp.
Qed.

Lemma keeps_getGemini {B} (k : GeminiService -> M Row B) :
  (forall g, IG g -> Keeps IG IB P (k g)) -> Keeps IG IB P (bind (@getGemini Row) k).
Proof. intros Hk w r w' Hg Hb H. exact (Hk _ Hg _ _ _ Hg Hb H). Qed.

Lemma keeps_putGemini g : IG g -> Keeps IG IB P (@putGemini Row g).
Proof.
  intros Hi w r w' Hg Hb H; inversion H; subst; simpl. repeat split; auto.
  now exists [].
Qed.

Lemma keeps_getBigQuery {B} (k : BigQueryService -> M Row B) :
  (forall b, IB b -> Keeps IG IB P (k b)) -> Keeps IG IB P (bind (@getBigQuery Row) k).
Proof. intros Hk w r w' Hg Hb H. exact (Hk _ Hb _ _ _ Hg Hb H). Qed.

Lemma keeps_putBigQuery b : IB b -> Keeps IG IB P (@putBigQuery Row b).
Proof.
  intros Hi w r w' Hg Hb H; inversion H; subst; simpl. repeat split; auto.
  now exists [].
Qed.

Lemma keeps_promiseAll {A} (cs : list (M Row A)) :
  Forall (Keeps IG IB P) cs -> Keeps IG IB P (promiseAll cs).
Proof.
  induction 1 as [|c cs Hc _ IH]; [apply keeps_ret|].
  intros w r w' Hg Hb H. cbn [promiseAll] in H.
  destruct (c w) as [r1 w1] eqn:E1.
  destruct (promiseAll cs w1) as [rs w2] eqn:E2.
  inversion H; subst w'.
  destruct (Hc _ _ _ Hg Hb E1) as (Hg1 & Hb1 & evs1 & T1 & F1).
  destruct (IH _ _ _ Hg1 Hb1 E2) as (Hg2 & Hb2 & evs2 & T2 & F2).
  repeat split; auto. exists (evs2 ++ evs1).
  rewrite T2, T1, app_assoc, forallb_app, F1, F2. auto.
Qed.

(** ** The methods, one by one *)

(** What the invariants and the event filter have to allow: the writes
    of the two initializations, where the configuration lets them happen;
    the write and the request of a first location lookup; the events other
    than executions and dataset metadata requests. *)
Hypothesis G_init :
  forall g, IG g -> gemini_initialized g = false ->
    truthy (GEMINI_API_KEY env) = true -> IG (initializedGemini env).
Hypothesis B_init :
  forall b, IB b -> bigquery_initialized b = false ->
    truthy (BIGQUERY_PROJECT_ID env) = true ->
    truthy (BIGQUERY_DATASET env) = true -> IB (initializedBigQuery env).
Hypothesis B_locate :
  forall b, IB b -> truthy (datasetLocation b) = false ->
    (forall l, IB (withLocationOf b l)) /\
    (forall d, P (RemoteDatasetMetadata d) = true).
Hypothesis P_other :
  forall e, isExecution e = false -> isDatasetMetadata e = false -> P e = true.

Ltac keeps :=
  repeat first
    [ solve [auto 1 with kept nocore]
    | apply keeps_ret | apply keeps_throw
    | apply keeps_emit; [now apply P_other]
    | apply keeps_await; [now apply P_other]
    | apply keeps_getGemini; intros
    | apply keeps_getBigQuery; intros
    | apply keeps_bind; [|intros]
    | apply keeps_tryCatch; [|intros] ].

Lemma keeps_BigQueryService_initialize :
  Keeps IG IB P (BigQueryService_initialize (Row := Row) env).
Proof.
  unfold BigQueryService_initialize. apply keeps_getBigQuery; intros b Hb.
  destruct (bigquery_initialized b) eqn:E; [apply keeps_ret|].
  destruct (negb (truthy (BIGQUERY_PROJECT_ID env))) eqn:E1; [apply keeps_throw|].
  destruct (negb (truthy (BIGQUERY_DATASET env))) eqn:E2; [apply keeps_throw|].
  apply negb_false_iff in E1, E2.
  apply keeps_putBigQuery. exact (B_init b Hb E E1 E2).
Qed.
Local Hint Resolve keeps_BigQueryService_initialize : kept.

Lemma keeps_dataset : Keeps IG IB P (@dataset Row).
Proof.
  unfold dataset. apply keeps_getBigQuery; intros b Hb.
  destruct (bigquery b), (datasetId b); keeps.
Qed.
Local Hint Resolve keeps_dataset : kept.

Lemma keeps_getTables : Keeps IG IB P (getTables env remote).
Proof. unfold getTables. keeps. Qed.
Local Hint Resolve keeps_getTables : kept.

Lemma keeps_getTableSchema name : Keeps IG IB P (getTableSchema env remote name).
Proof. unfold getTableSchema. keeps. Qed.
Local Hint Resolve keeps_getTableSchema : kept.

Lemma keeps_getAllTableSchemas : Keeps IG IB P (getAllTableSchemas env remote).
Proof.
  unfold getAllTableSchemas. keeps.
  apply keeps_promiseAll, Forall_map, Forall_forall.
  intros name _. apply keeps_getTableSchema.
Qed.
Local Hint Resolve keeps_getAllTableSchemas : kept.

Lemma keeps_fetchSchemas : Keeps IG IB P (fetchSchemas env remote).
Proof. unfold fetchSchemas. keeps. Qed.
Local Hint Resolve keeps_fetchSchemas : kept.

Lemma keeps_getDatasetId : Keeps IG IB P (getDatasetId (Row := Row) env).
Proof.
  unfold getDatasetId. keeps.
Qed.
Local Hint Resolve keeps_getDatasetId : kept.

Lemma keeps_GeminiService_initialize :
  Keeps IG IB P (GeminiService_initialize (Row := Row) env).
Proof.
  unfold GeminiService_initialize. apply keeps_getGemini; intros g Hg.
  destruct (gemini_initialized g) eqn:E; [apply keeps_ret|].
  destruct (negb (truthy (GEMINI_API_KEY env))) eqn:E1; [apply keeps_throw|].
  apply negb_false_iff in E1.
  apply keeps_putGemini. exact (G_init g Hg E E1).
Qed.
Local Hint Resolve keeps_GeminiService_initialize : kept.

Lemma keeps_generateContent prompt : Keeps IG IB P (generateContent remote prompt).
Proof.
  unfold generateContent. apply keeps_getGemini; intros g Hg.
  destruct (model g); keeps.
Qed.
Local Hint Resolve keeps_generateContent : kept.

Lemma keeps_generateSQL userQuery tableSchemas d :
  Keeps IG IB P (generateSQL env remote userQuery tableSchemas d).
Proof. unfold generateSQL. keeps. Qed.
Local Hint Resolve keeps_generateSQL : kept.

Lemma keeps_generateQuery message tableSchemas :
  Keeps IG IB P (generateQuery env remote message tableSchemas).
Proof. unfold generateQuery. keeps. Qed.
Local Hint Resolve keeps_generateQuery : kept.

Lemma keeps_resultsSummary results : Keeps IG IB P (resultsSummary rt results).
Proof.
  unfold resultsSummary. destruct results; keeps.
  destruct (JSON_stringify rt _); keeps.
Qed.
Local Hint Resolve keeps_resultsSummary : kept.

Lemma keeps_explainResults userQuery sqlQuery results :
  Keeps IG IB P (explainResults rt env remote userQuery sqlQuery results).
Proof. unfold explainResults. keeps. Qed.
Local Hint Resolve keeps_explainResults : kept.

Lemma keeps_res_json response results :
  Keeps IG IB P (res_json rt response results).
Proof. unfold res_json. destruct (JSON_stringify rt results); keeps. Qed.
Local Hint Resolve keeps_res_json : kept.

Lemma keeps_respond message sqlQuery results :
  Keeps IG IB P (respond rt env remote message sqlQuery results).
Proof. unfold respond. keeps. Qed.
Local Hint Resolve keeps_respond : kept.

(** The location is read from the cache when there is one. *)
Lemma getDatasetLocation_cached w c r :
  datasetLocation (bigqueryService w) = Some (c :: r) ->
  _getDatasetLocation remote w = (Ok (c :: r), w).
Proof.
  intros H. unfold _getDatasetLocation, bind, getBigQuery. now rewrite H.
Qed.

(** Without one, the call stores what it returns: the location the
    metadata reports or ["US"], after at most one metadata request. *)
Lemma getDatasetLocation_first w :
  truthy (datasetLocation (bigqueryService w)) = false ->
  exists l evs,
    _getDatasetLocation remote w
    = (Ok l, {| geminiService := geminiService w;
                bigqueryService := withLocationOf (bigqueryService w) l;
                trace := evs ++ trace w |})
    /\ l <> []
    /\ (evs = [] \/ exists d, evs = [RemoteDatasetMetadata d])
    /\ (forall d,
          bigquery (bigqueryService w) <> None ->
          datasetId (bigqueryService w) = Some d ->
          evs = [RemoteDatasetMetadata d] /\
          l = match getDatasetMetadata remote (trace w) d with
              | Ok reported => orElse reported (js "US")
              | Throw _ => js "US"
              end).
Proof.
  intros Hc.
  assert (E : _getDatasetLocation remote w
              = tryCatch
                  (bind (@dataset Row) (fun d =>
                   bind (await (fun t => getDatasetMetadata remote t d)
                               (RemoteDatasetMetadata d)) (fun location =>
                   bind (setDatasetLocation (orElse location (js "US")))
                        (fun _ => ret (orElse location (js "US"))))))
                  (fun _ => bind (setDatasetLocation (js "US"))
                                 (fun _ => ret (js "US"))) w).
  { unfold _getDatasetLocation, bind at 1, getBigQuery.
    destruct (datasetLocation (bigqueryService w)) as [[|c r]|]; try reflexivity.
    discriminate Hc. }
  rewrite E; clear E.
  unfold dataset, setDatasetLocation.
  unfold tryCatch, bind, getBigQuery, await, putBigQuery, ret, throw,
    withLocationOf.
  destruct w as [g [client ds loc init] t].
  cbn [bigqueryService geminiService trace bigquery datasetId
       bigquery_initialized] in *.
  destruct client as [client|]; [destruct ds as [d|]|]; cbn.
  - destruct (getDatasetMetadata remote t d) as [reported|e] eqn:Em.
    + exists (orElse reported (js "US")), [RemoteDatasetMetadata d].
      split; [reflexivity|]. split.
      { destruct reported as [[|c r]|]; discriminate. }
      split; [right; now exists d|].
      intros d' _ Hd; injection Hd as <-. now rewrite Em.
    + exists (js "US"), [RemoteDatasetMetadata d].
      split; [reflexivity|]. split; [discriminate|].
      split; [right; now exists d|].
      intros d' _ Hd; injection Hd as <-. now rewrite Em.
  - exists (js "US"), []. split; [reflexivity|]. split; [discriminate|].
    split; [now left|]. intros d' _ Hd; discriminate Hd.
  - exists (js "US"), []. split; [reflexivity|]. split; [discriminate|].
    split; [now left|]. intros d' Hn; now elim Hn.
Qed.

Lemma keeps__getDatasetLocation : Keeps IG IB P (_getDatasetLocation remote).
Proof.
  intros w r w' Hg Hi H.
  destruct (datasetLocation (bigqueryService w)) as [[|c l]|] eqn:E.
  2: { rewrite (getDatasetLocation_cached w c l E) in H. inversion H; subst.
       repeat split; auto. now exists []. }
  all: destruct (getDatasetLocation_first w) as (l & evs & R & _ & Hev & _);
    [now rewrite E|];
    rewrite R in H; inversion H; subst; cbn [bigqueryService geminiService trace];
    destruct (B_locate _ Hi) as [Hl Hp]; [now rewrite E|];
    split; [assumption|]; split; [apply Hl|]; exists evs; split; [reflexivity|];
    destruct Hev as [-> | [d ->]]; [reflexivity|]; cbn; now rewrite Hp.
Qed.
Local Hint Resolve keeps__getDatasetLocation : kept.

Hypothesis P_exec : forall e, isExecution e = true -> P e = true.

Ltac keeps_all :=
  repeat first
    [ progress keeps
    | apply keeps_emit; [now apply P_exec]
    | apply keeps_await; [now apply P_exec] ].

Lemma keeps_executeQuery query : Keeps IG IB P (executeQuery env remote query).
Proof. unfold executeQuery. keeps_all. Qed.
Local Hint Resolve keeps_executeQuery : kept.

Lemma keeps_gateAndExecute message sqlQuery :
  Keeps IG IB P (gateAndExecute rt env remote message sqlQuery).
Proof.
  unfold gateAndExecute.
  destruct (_ || _); [keeps|]. destruct (negb _); [keeps|].
  keeps_all. destruct a; keeps.
Qed.
Local Hint Resolve keeps_gateAndExecute : kept.

Lemma keeps_synthesize message tableSchemas :
  Keeps IG IB P (synthesize rt env remote message tableSchemas).
Proof. unfold synthesize. keeps. destruct a; keeps. Qed.
Local Hint Resolve keeps_synthesize : kept.

Lemma keeps_chatBody body : Keeps IG IB P (chatBody rt env remote body).
Proof.
  unfold chatBody. keeps.
  - unfold destructure. destruct body; keeps.
  - destruct (rejected a); keeps.
Qed.

Lemma keeps_run {A} (c : M Row A) w :
  Keeps IG IB P c -> IG (geminiService w) -> IB (bigqueryService w) ->
  IG (geminiService (snd (c w))) /\ IB (bigqueryService (snd (c w))) /\
  exists evs, trace (snd (c w)) = evs ++ trace w /\ forallb P evs = true.
Proof.
  intros Hc Hg Hb. destruct (c w) as [r w'] eqn:E. exact (Hc _ _ _ Hg Hb E).
Qed.

Lemma keeps_catchAll c w :
  Keeps IG IB P c -> IG (geminiService w) -> IB (bigqueryService w) ->
  IG (geminiService (snd (catchAll c w))) /\
  IB (bigqueryService (snd (catchAll c w))) /\
  exists evs, trace (snd (catchAll c w)) = evs ++ trace w /\ forallb P evs = true.
Proof.
  intros Hc Hg Hb. unfold catchAll.
  destruct (c w) as [[response|e] w'] eqn:E; exact (Hc _ _ _ Hg Hb E).
Qed.

Lemma keeps_perform call w :
  IG (geminiService w) -> IB (bigqueryService w) ->
  IG (geminiService (perform rt env remote call w)) /\
  IB (bigqueryService (perform rt env remote call w)) /\
  exists evs, trace (perform rt env remote call w) = evs ++ trace w
              /\ forallb P evs = true.
Proof.
  intros Hg Hb. destruct call; cbn [perform];
    first [ apply keeps_catchAll; [apply keeps_chatBody | assumption..]
          | apply keeps_run; [keeps | assumption..] ].
Qed.

Lemma keeps_performAll calls w :
  IG (geminiService w) -> IB (bigqueryService w) ->
  IG (geminiService (performAll rt env remote calls w)) /\
  IB (bigqueryService (performAll rt env remote calls w)) /\
  exists evs, trace (performAll rt env remote calls w) = evs ++ trace w
              /\ forallb P evs = true.
Proof.
  revert w; induction calls as [|call calls IH]; intros w Hg Hb.
  - repeat split; auto. now exists [].
  - cbn [performAll fold_left].
    destruct (keeps_perform call w Hg Hb) as (Hg1 & Hb1 & evs1 & T1 & F1).
    destruct (IH _ Hg1 Hb1) as (Hg2 & Hb2 & evs2 & T2 & F2).
    repeat split; auto. exists (evs2 ++ evs1).
    unfold performAll in T2. rewrite T2, T1, app_assoc, forallb_app, F1, F2. auto.
Qed.

End Keeping.


(** ** Counting events *)

Lemma count_app p (a b : Trace Row) : count p (a ++ b) = count p a + count p b.
Proof. unfold count. now rewrite filter_app, length_app. Qed.

Lemma count_none p (evs : Trace Row) :
  forallb (fun e => negb (p e)) evs = true -> count p evs = 0.
Proof.
  unfold count. induction evs as [|e evs IH]; simpl; auto.
  intros H; apply andb_true_iff in H as [H1 H2].
  apply negb_true_iff in H1. rewrite H1. auto.
Qed.

Lemma count_grown p (evs t t' : Trace Row) :
  t' = evs ++ t -> forallb (fun e => negb (p e)) evs = true ->
  count p t' = count p t.
Proof. intros -> H. now rewrite count_app, (count_none p evs H). Qed.

(** Up to the safety gate nothing is executed. *)
Lemma fetchSchemas_no_execution w r w' :
  fetchSchemas env remote w = (r, w') ->
  count isExecution (trace w') = count isExecution (trace w).
Proof.
  intros H.
  assert (K : Keeps (fun _ => True) (fun _ => True)
                    (fun e => negb (isExecution e)) (fetchSchemas env remote)).
  { apply keeps_fetchSchemas; auto. intros e He _; now rewrite He. }
  destruct (K w r w' Logic.I Logic.I H) as (_ & _ & evs & T & F).
  exact (count_grown _ _ _ _ T F).
Qed.

Lemma generateQuery_no_execution message schemas w r w' :
  generateQuery env remote message schemas w = (r, w') ->
  count isExecution (trace w') = count isExecution (trace w).
Proof.
  intros H.
  assert (K : Keeps (fun _ => True) (fun _ => True)
                    (fun e => negb (isExecution e))
                    (generateQuery env remote message schemas)).
  { apply keeps_generateQuery; auto. intros e He _; now rewrite He. }
  destruct (K w r w' Logic.I Logic.I H) as (_ & _ & evs & T & F).
  exact (count_grown _ _ _ _ T F).
Qed.

(** ** What the generator returns *)

Lemma generateSQL_returns userQuery tableSchemas d w sql w' :
  generateSQL env remote userQuery tableSchemas d w = (Ok sql, w') ->
  exists text, sql = cleanSql text.
Proof.
  unfold generateSQL, bind, tryCatch, emit, ret, throw.
  destruct (GeminiService_initialize env _) as [[[]|e] w1]; [|discriminate].
  destruct (generateContent remote _ w1) as [[text|e] w2]; [|discriminate].
  intros H; inversion H. now exists text.
Qed.

Lemma generateQuery_returns message schemas w sql w' :
  generateQuery env remote message schemas w = (Ok sql, w') ->
  exists text, sql = cleanSql text.
Proof.
  unfold generateQuery, bind.
  destruct (getDatasetId env w) as [[d|e] w1]; [|discriminate].
  apply generateSQL_returns.
Qed.

Lemma toUpperCase_nil : toUpperCase rt [] = [].
Proof. reflexivity. Qed.

(** ** The route *)

Lemma chat_valid message w schemas w1 :
  rejected (VString message) = false ->
  fetchSchemas env remote w = (Ok schemas, w1) ->
  chat rt env remote (BodyWith (VString message)) w
  = catchAll (synthesize rt env remote message schemas) w1.
Proof.
  intros Hr Hs. unfold chat, catchAll, chatBody, destructure.
  unfold bind at 1, ret at 1. rewrite Hr.
  unfold bind at 1. now rewrite Hs.
Qed.

Lemma synthesize_generated message schemas w sql w1 :
  generateQuery env remote message schemas w = (Ok sql, w1) ->
  synthesize rt env remote message schemas w
  = gateAndExecute rt env remote message sql w1.
Proof.
  intros Hg. unfold synthesize, bind at 1, tryCatch, bind at 1.
  now rewrite Hg.
Qed.

Lemma fetchSchemas_total w :
  exists schemas w1, fetchSchemas env remote w = (Ok schemas, w1).
Proof.
  unfold fetchSchemas, tryCatch.
  destruct (getAllTableSchemas env remote w) as [[schemas|e] w1];
    [now exists schemas, w1 | now exists [], w1].
Qed.


(** C3.  A request whose [message] is absent, is not a string, or is empty
    once trimmed is answered with 400 and the text of the validation
    error, and the process is left as it was: no service method has been
    invoked and no request has gone to the schema provider, the generator
    or the warehouse. *)
Theorem invalid_message_short_circuits (message : JsValue) (w : World Row) :
  (forall s, message = VString s -> trim s = []) ->
  chat rt env remote (BodyWith message) w
  = ({| status := 400;
        payload := Failure
                     (js "Message is required and must be a non-empty string")
                     None None |}, w).
Proof.
  intros H.
  assert (R : rejected message = true).
  { destruct message as [| |b|n|s|]; try reflexivity.
    - unfold rejected; simpl. now rewrite orb_true_r.
    - unfold rejected; simpl. now rewrite orb_true_r.
    - unfold rejected. cbn [asString]. rewrite (H s eq_refl). apply orb_true_r. }
  unfold chat, catchAll, chatBody, destructure, bind, ret. now rewrite R.
Qed.

(** C9.  A request whose body is [undefined] or [null], so that reading
    its [message] property throws, is answered by the outer catch-all with
    500, the error ["Internal server error"] and the message of the
    thrown error as [details]; the handler completes and the process is
    left as it was. *)
Theorem unreadable_body_is_internal_error (body : ReqBody) (w : World Row) :
  body = BodyUndefined \/ body = BodyNull ->
  chat rt env remote body w
  = ({| status := 500;
        payload := Failure (js "Internal server error")
                           (Some (destructureError rt body)) None |}, w).
Proof. intros [-> | ->]; reflexivity. Qed.

(** C1, as amended.  When the generated SQL is not empty and its trimmed,
    upper-cased text does not contain [SELECT], the response is 400 with
    the error ["Only SELECT queries are allowed for security reasons"] and
    the rejected SQL as [generatedQuery], and neither [executeQuery] nor
    the warehouse has been called for the request. *)
Theorem non_select_query_is_rejected
    (message : jsstring) (w : World Row)
    (schemas : list TableSchema) (w1 : World Row)
    (sql : jsstring) (w2 : World Row) :
  rejected (VString message) = false ->
  fetchSchemas env remote w = (Ok schemas, w1) ->
  generateQuery env remote message schemas w1 = (Ok sql, w2) ->
  sql <> [] ->
  includes SELECT (toUpperCase rt (trim sql)) = false ->
  chat rt env remote (BodyWith (VString message)) w
  = ({| status := 400;
        payload := Failure
                     (js "Only SELECT queries are allowed for security reasons")
                     None (Some sql) |}, w2)
  /\ count isExecution (trace w2) = count isExecution (trace w).
Proof.
  intros Hr Hs Hg Hne Hsel. split.
  - rewrite (chat_valid _ _ _ _ Hr Hs). unfold catchAll.
    rewrite (synthesize_generated _ _ _ _ _ Hg). unfold gateAndExecute.
    destruct (generateQuery_returns _ _ _ _ _ Hg) as [text ->].
    rewrite cleanSql_trimmed in *.
    destruct (cleanSql text) as [|c r] eqn:E; [congruence|].
    cbn [List.length Nat.eqb orb]. now rewrite Hsel.
  - rewrite (generateQuery_no_execution _ _ _ _ _ Hg).
    apply (fetchSchemas_no_execution _ _ _ Hs).
Qed.

(** C8.  When the message is valid, the query is generated, passes the
    safety gate and is executed, and the rows that were returned can be
    serialized, the response is 200 and carries [success: true], the
    message as [userQuery], the generated SQL as [sqlQuery], the rows
    returned by the execution as [results] and their number as
    [resultCount]. *)
Theorem successful_request_response
    (message : jsstring) (w : World Row)
    (schemas : list TableSchema) (w1 : World Row)
    (sql : jsstring) (w2 : World Row)
    (rows : list Row) (w3 : World Row) (text : jsstring) :
  rejected (VString message) = false ->
  fetchSchemas env remote w = (Ok schemas, w1) ->
  generateQuery env remote message schemas w1 = (Ok sql, w2) ->
  includes SELECT (toUpperCase rt (trim sql)) = true ->
  executeQuery env remote sql w2 = (Ok rows, w3) ->
  JSON_stringify rt rows = Ok text ->
  exists explanation w4,
    chat rt env remote (BodyWith (VString message)) w
    = ({| status := 200;
          payload := Success message sql explanation rows (List.length rows) |},
       w4).
Proof.
  intros Hr Hs Hg Hsel Hx Hj.
  rewrite (chat_valid _ _ _ _ Hr Hs). unfold catchAll.
  rewrite (synthesize_generated _ _ _ _ _ Hg). unfold gateAndExecute.
  assert (Hne : trim sql <> []).
  { intros E. rewrite E, toUpperCase_nil in Hsel. discriminate Hsel. }
  destruct sql as [|c r]; [now elim Hne|].
  destruct (trim (c :: r)) as [|c' r'] eqn:E; [now elim Hne|].
  cbn [List.length Nat.eqb orb]. rewrite Hsel. cbn [negb].
  unfold bind at 1, tryCatch, bind at 1. rewrite Hx.
  unfold ret at 1. unfold respond, res_json, bind, tryCatch. rewrite Hj.
  destruct (explainResults rt env remote message (c :: r) rows w3)
    as [[explanation|e] w4]; eexists; eexists; reflexivity.
Qed.


(** ** Degraded schema context *)

Lemma getDatasetId_configured (w : World Row) :
  truthy (BIGQUERY_PROJECT_ID env) = true ->
  truthy (BIGQUERY_DATASET env) = true ->
  exists d b,
    getDatasetId env w
    = (Ok d, {| geminiService := geminiService w;
                bigqueryService := b;
                trace := CallGetDatasetId :: trace w |})
    /\ (bigquery_initialized (bigqueryService w) = true -> b = bigqueryService w).
Proof.
  intros Hp Hd. unfold getDatasetId, BigQueryService_initialize.
  unfold bind, emit, getBigQuery, putBigQuery, ret.
  cbn [bigqueryService geminiService trace].
  destruct (bigquery_initialized (bigqueryService w)) eqn:E.
  - eexists; eexists; split; [reflexivity | auto].
  - rewrite Hp, Hd. cbn [negb bigqueryService geminiService trace].
    eexists; eexists; split; [reflexivity | discriminate].
Qed.

(** Whatever the invariants, a computation only adds to the trace. *)
Lemma trace_grows {A} (c : M Row A) w r w' :
  Keeps (fun _ => True) (fun _ => True) (fun _ => true) c ->
  c w = (r, w') -> exists evs, trace w' = evs ++ trace w.
Proof.
  intros K H. destruct (K w r w' Logic.I Logic.I H) as (_ & _ & evs & T & _).
  now exists evs.
Qed.

Lemma generateSQL_recorded userQuery tableSchemas d (w : World Row) r w' :
  generateSQL env remote userQuery tableSchemas d w = (r, w') ->
  exists evs,
    trace w' = evs ++ CallGenerateSQL userQuery tableSchemas d :: trace w.
Proof.
  unfold generateSQL. unfold bind at 1, emit. intros H.
  apply trace_grows in H; [exact H|].
  apply keeps_bind; [apply keeps_GeminiService_initialize; auto|intros _].
  apply keeps_tryCatch; [|intros; apply keeps_throw].
  apply keeps_bind; [apply keeps_generateContent; auto|intros; apply keeps_ret].
Qed.

Lemma synthesize_calls_generateSQL message schemas (w : World Row) r w' :
  truthy (BIGQUERY_PROJECT_ID env) = true ->
  truthy (BIGQUERY_DATASET env) = true ->
  synthesize rt env remote message schemas w = (r, w') ->
  exists d evs,
    trace w' = evs ++ trace w /\ In (CallGenerateSQL message schemas d) evs.
Proof.
  intros Hp Hd H.
  destruct (getDatasetId_configured w Hp Hd) as (d & b & Ed & _).
  unfold synthesize, generateQuery in H. unfold bind, tryCatch in H.
  rewrite Ed in H.
  match type of H with
  | context [generateSQL env remote message schemas d ?wa] =>
      destruct (generateSQL env remote message schemas d wa)
        as [[sql|e] wb] eqn:Eg
  end;
    destruct (generateSQL_recorded _ _ _ _ _ _ Eg) as [evs1 T1];
    cbn [trace] in T1; cbv beta iota zeta delta [ret] in H.
  - apply trace_grows in H.
    + destruct H as [evs2 T2]. exists d.
      exists (evs2 ++ evs1 ++ [CallGenerateSQL message schemas d; CallGetDatasetId]).
      split.
      * rewrite T2, T1. now rewrite <- !app_assoc.
      * apply in_or_app; right. apply in_or_app; right. now left.
    + apply keeps_gateAndExecute; auto.
  - inversion H; subst. exists d.
    exists (evs1 ++ [CallGenerateSQL message schemas d; CallGetDatasetId]).
    split.
    + rewrite T1. now rewrite <- !app_assoc.
    + apply in_or_app; right. now left.
Qed.

(** C4, as amended.  When [getAllTableSchemas] raises although the project
    and dataset identifiers are configured, the request is not aborted: it
    goes on through the rest of the pipeline with an empty schema context,
    and [generateSQL] is called with the message and the empty sequence. *)
Theorem schema_failure_degrades_to_empty_context
    (message : jsstring) (w : World Row) (e : jsstring) (w1 : World Row) :
  rejected (VString message) = false ->
  truthy (BIGQUERY_PROJECT_ID env) = true ->
  truthy (BIGQUERY_DATASET env) = true ->
  getAllTableSchemas env remote w = (Throw e, w1) ->
  chat rt env remote (BodyWith (VString message)) w
  = catchAll (synthesize rt env remote message []) w1
  /\ exists d evs,
       trace (snd (chat rt env remote (BodyWith (VString message)) w))
       = evs ++ trace w1
       /\ In (CallGenerateSQL message [] d) evs.
Proof.
  intros Hr Hp Hd Ht.
  assert (Hs : fetchSchemas env remote w = (Ok [], w1)).
  { unfold fetchSchemas, tryCatch. now rewrite Ht. }
  rewrite (chat_valid _ _ _ _ Hr Hs). split; [reflexivity|].
  unfold catchAll.
  destruct (synthesize rt env remote message [] w1) as [[response|e'] w'] eqn:E;
    exact (synthesize_calls_generateSQL _ _ _ _ _ Hp Hd E).
Qed.


(** ** Missing configuration *)

Lemma chat_without_warehouse_configuration message (w : World Row) name :
  rejected (VString message) = false ->
  bigquery_initialized (bigqueryService w) = false ->
  (truthy (BIGQUERY_PROJECT_ID env) = false /\ name = js "BIGQUERY_PROJECT_ID")
  \/ (truthy (BIGQUERY_PROJECT_ID env) = true /\
      truthy (BIGQUERY_DATASET env) = false /\ name = js "BIGQUERY_DATASET") ->
  fst (chat rt env remote (BodyWith (VString message)) w)
  = {| status := 500;
       payload := Failure (js "Failed to generate SQL query")
                    (Some (name ++ js " environment variable is not set"))
                    None |}.
Proof.
  intros Hr Hi Hm.
  unfold chat, catchAll, chatBody, destructure, fetchSchemas, getAllTableSchemas,
    getTables, synthesize, generateQuery, getDatasetId, BigQueryService_initialize.
  unfold bind, tryCatch, ret, emit, getBigQuery, throw. rewrite Hr.
  destruct w as [g [client ds loc init] t].
  cbn [bigqueryService bigquery_initialized] in Hi. subst init.
  destruct Hm as [[H1 ->] | (H1 & H2 & ->)]; rewrite H1; [|rewrite H2];
    reflexivity.
Qed.

Lemma chat_without_api_key message (w : World Row) :
  rejected (VString message) = false ->
  gemini_initialized (geminiService w) = false ->
  truthy (BIGQUERY_PROJECT_ID env) = true ->
  truthy (BIGQUERY_DATASET env) = true ->
  truthy (GEMINI_API_KEY env) = false ->
  fst (chat rt env remote (BodyWith (VString message)) w)
  = {| status := 500;
       payload := Failure (js "Failed to generate SQL query")
                    (Some (js "GEMINI_API_KEY environment variable is not set"))
                    None |}.
Proof.
  intros Hr Hg Hp Hd Hk.
  destruct (fetchSchemas_total w) as (schemas & w1 & Hs).
  assert (Hg1 : gemini_initialized (geminiService w1) = false).
  { refine (proj1 (keeps_fetchSchemas
                     (fun g => gemini_initialized g = false) (fun _ => True)
                     (fun _ => true) _ _ w _ w1 Hg Logic.I Hs)); auto. }
  rewrite (chat_valid _ _ _ _ Hr Hs).
  destruct (getDatasetId_configured w1 Hp Hd) as (d & b & Ed & _).
  unfold catchAll, synthesize, generateQuery. unfold bind, tryCatch.
  rewrite Ed.
  unfold generateSQL, GeminiService_initialize.
  unfold bind, emit, getGemini, throw, ret.
  cbn [bigqueryService geminiService trace]. rewrite Hg1, Hk. reflexivity.
Qed.

Lemma warehouse_stays_uninitialized calls :
  truthy (BIGQUERY_PROJECT_ID env) = false
  \/ truthy (BIGQUERY_DATASET env) = false ->
  bigquery_initialized
    (bigqueryService (performAll rt env remote calls startup)) = false.
Proof.
  intros Hm.
  refine (proj1 (proj2 (keeps_performAll
                   (fun _ => True) (fun b => bigquery_initialized b = false)
                   (fun _ => true) _ _ _ _ _ calls startup Logic.I eq_refl)));
    auto.
  - intros b _ _ Hp Hd. destruct Hm; congruence.
Qed.

Lemma generator_stays_uninitialized calls :
  truthy (GEMINI_API_KEY env) = false ->
  gemini_initialized
    (geminiService (performAll rt env remote calls startup)) = false.
Proof.
  intros Hm.
  refine (proj1 (keeps_performAll
                   (fun g => gemini_initialized g = false) (fun _ => True)
                   (fun _ => true) _ _ _ _ _ calls startup eq_refl Logic.I));
    auto.
  - intros g _ _ Hk. congruence.
Qed.

(** C6, as amended.  The configuration is checked when a request first
    needs it, not at startup: as long as a required value (project
    identifier, dataset identifier, API key) is absent, every request with
    a valid message, at any time in the life of the process, is answered
    with 500, the error ["Failed to generate SQL query"] and details
    naming the absent variable. *)
Theorem missing_configuration_fails_each_request
    (name : jsstring) (calls : list (ServiceCall Row)) (message : jsstring) :
  missingVariable env = Some name ->
  rejected (VString message) = false ->
  fst (chat rt env remote (BodyWith (VString message))
         (performAll rt env remote calls startup))
  = {| status := 500;
       payload := Failure (js "Failed to generate SQL query")
                    (Some (name ++ js " environment variable is not set"))
                    None |}.
Proof.
  unfold missingVariable. intros Hm Hr.
  destruct (truthy (BIGQUERY_PROJECT_ID env)) eqn:Hp; cbn [negb] in Hm.
  2: { injection Hm as <-.
       apply chat_without_warehouse_configuration; auto.
       apply warehouse_stays_uninitialized; auto. }
  destruct (truthy (BIGQUERY_DATASET env)) eqn:Hd; cbn [negb] in Hm.
  2: { injection Hm as <-.
       apply chat_without_warehouse_configuration; auto.
       apply warehouse_stays_uninitialized; auto. }
  destruct (truthy (GEMINI_API_KEY env)) eqn:Hk; cbn [negb] in Hm;
    [discriminate|].
  injection Hm as <-.
  apply chat_without_api_key; auto.
  apply generator_stays_uninitialized; auto.
Qed.


(** ** The explanation step *)

Lemma GeminiService_initialize_ok (w : World Row) w' :
  GeminiService_initialize env w = (Ok tt, w') ->
  gemini_initialized (geminiService w') = true.
Proof.
  unfold GeminiService_initialize, bind, getGemini, putGemini, ret, throw.
  destruct (gemini_initialized (geminiService w)) eqn:E.
  - intros H; inversion H; subst; exact E.
  - destruct (negb (truthy (GEMINI_API_KEY env))); intros H; inversion H.
    reflexivity.
Qed.

Lemma generateQuery_initializes message schemas (w : World Row) sql w' :
  generateQuery env remote message schemas w = (Ok sql, w') ->
  gemini_initialized (geminiService w') = true.
Proof.
  unfold generateQuery, generateSQL. unfold bind, tryCatch, emit, ret, throw.
  destruct (getDatasetId env w) as [[d|e] w1]; [|discriminate].
  destruct (GeminiService_initialize env _) as [[[]|e] w2] eqn:E2; [|discriminate].
  apply GeminiService_initialize_ok in E2.
  unfold generateContent, bind, getGemini, await, throw.
  destruct (model (geminiService w2)) as [m|]; [|discriminate].
  destruct (generate remote (trace w2) m _); [|discriminate].
  intros H; inversion H; subst. exact E2.
Qed.

Lemma executeQuery_keeps_generator query (w : World Row) r w' :
  executeQuery env remote query w = (r, w') ->
  gemini_initialized (geminiService w) = true ->
  gemini_initialized (geminiService w') = true.
Proof.
  intros H Hg.
  assert (K : Keeps (fun g => gemini_initialized g = true) (fun _ => True)
                    (fun _ => true) (executeQuery env remote query))
    by (apply keeps_executeQuery; auto).
  exact (proj1 (K w r w' Hg Logic.I H)).
Qed.

Lemma explainResults_initialized message sqlQuery rows (w : World Row) :
  gemini_initialized (geminiService w) = true ->
  exists explanation w',
    explainResults rt env remote message sqlQuery rows w = (Ok explanation, w').
Proof.
  intros Hg. unfold explainResults, GeminiService_initialize.
  unfold bind at 1 2 3, emit, getGemini, ret at 1, tryCatch.
  cbn [geminiService]. rewrite Hg.
  match goal with
  | |- context [match ?c ?w0 with (_, _) => _ end] =>
      destruct (c w0) as [[explanation|e] w']
  end; eexists; eexists; reflexivity.
Qed.

(** X20.  Once the query is generated and executed, [explainResults]
    returns: the [catch] around it in the route (lines 224-227) is never
    entered. *)
Lemma explanation_never_throws_in_route
    message schemas (w1 : World Row) sql w2 rows w3 :
  generateQuery env remote message schemas w1 = (Ok sql, w2) ->
  executeQuery env remote sql w2 = (Ok rows, w3) ->
  exists explanation w4,
    explainResults rt env remote message sql rows w3 = (Ok explanation, w4).
Proof.
  intros Hg Hx. apply explainResults_initialized.
  apply (executeQuery_keeps_generator _ _ _ _ Hx).
  apply (generateQuery_initializes _ _ _ _ _ Hg).
Qed.

(** ** The warehouse location *)

Lemma executeQuery_configured_location (w : World Row) query c r :
  bigquery_initialized (bigqueryService w) = false ->
  truthy (BIGQUERY_PROJECT_ID env) = true ->
  truthy (BIGQUERY_DATASET env) = true ->
  BIGQUERY_LOCATION env = Some (c :: r) ->
  exists res,
    executeQuery env remote query w
    = (res, {| geminiService := geminiService w;
               bigqueryService := initializedBigQuery env;
               trace := RemoteQuery query (c :: r)
                        :: CallExecuteQuery query :: trace w |})
    /\ datasetLocation (initializedBigQuery env) = Some (c :: r).
Proof.
  intros Hi Hp Hd Hl.
  unfold executeQuery, BigQueryService_initialize, _getDatasetLocation,
    initializedBigQuery.
  unfold bind, tryCatch, emit, getBigQuery, putBigQuery, ret, throw, await.
  destruct w as [g [client ds loc init] t].
  cbn [bigqueryService bigquery_initialized] in Hi. subst init.
  rewrite Hp, Hd, Hl. cbn.
  match goal with
  | |- context [execute remote ?t ?q ?l] => destruct (execute remote t q l)
  end; eexists; split; reflexivity.
Qed.

Lemma executeQuery_located (w : World Row) query c r :
  bigquery_initialized (bigqueryService w) = true ->
  datasetLocation (bigqueryService w) = Some (c :: r) ->
  exists res,
    executeQuery env remote query w
    = (res, {| geminiService := geminiService w;
               bigqueryService := bigqueryService w;
               trace := RemoteQuery query (c :: r)
                        :: CallExecuteQuery query :: trace w |}).
Proof.
  intros Hi Hl.
  unfold executeQuery, BigQueryService_initialize, _getDatasetLocation.
  unfold bind, tryCatch, emit, getBigQuery, putBigQuery, ret, throw, await.
  destruct w as [g [client ds loc init] t].
  cbn [bigqueryService bigquery_initialized datasetLocation] in Hi, Hl.
  subst init loc.
  cbn.
  match goal with
  | |- context [execute remote ?t ?q ?l] => destruct (execute remote t q l)
  end; eexists; reflexivity.
Qed.

Lemma located_is_stable (w : World Row) c r calls :
  bigquery_initialized (bigqueryService w) = true ->
  datasetLocation (bigqueryService w) = Some (c :: r) ->
  bigqueryService (performAll rt env remote calls w) = bigqueryService w
  /\ count isDatasetMetadata (trace (performAll rt env remote calls w))
     = count isDatasetMetadata (trace w).
Proof.
  intros Hi Hl.
  destruct (keeps_performAll
              (fun _ => True) (fun b => b = bigqueryService w)
              (fun e => negb (isDatasetMetadata e))) with (calls := calls) (w := w)
    as (_ & Hb & evs & T & F); auto.
  - intros b -> E. congruence.
  - intros b -> E. rewrite Hl in E. discriminate E.
  - intros e _ E. now rewrite E.
  - intros [] E; try reflexivity; discriminate E.
  - split; auto. exact (count_grown _ _ _ _ T F).
Qed.

(** *** Calls that overlap *)

(** [await] is the request and the settling of its promise with nothing in
    between. *)
Lemma await_is_request_settled {A} (answer : Trace Row -> Outcome A) e
    (w : World Row) :
  await answer e w = bind (request answer e) (@settled Row A) w.
Proof. reflexivity. Qed.

(** [_getDatasetLocation] is its two parts with nothing in between. *)
Lemma getDatasetLocation_uninterrupted (w : World Row) :
  _getDatasetLocation remote w
  = bind (_getDatasetLocation_called remote)
      (fun l => match l with
                | inl location => ret location
                | inr promise => _getDatasetLocation_resumed promise
                end) w.
Proof.
  unfold _getDatasetLocation, _getDatasetLocation_called,
    _getDatasetLocation_resumed, dataset, setDatasetLocation.
  unfold bind, tryCatch, getBigQuery, putBigQuery, ret, throw, await, request,
    settled.
  destruct w as [g [client ds loc init] t].
  cbn [bigqueryService geminiService trace datasetLocation bigquery datasetId].
  destruct loc as [[|c r]|]; try reflexivity;
    destruct client; try reflexivity; destruct ds; try reflexivity;
    cbn [bigqueryService geminiService trace];
    destruct (getDatasetMetadata remote t j0); reflexivity.
Qed.

(** [executeQuery] is the call that nothing interrupts: it is resumed as
    soon as it is suspended, and is at its end after three times. *)
Lemma executeQuery_uninterrupted query (w : World Row) :
  bind (executeQuery_called env remote query) (resumedAtOnce remote 3) w
  = bind (executeQuery env remote query) (fun rows => ret (inr rows)) w.
Proof.
  unfold executeQuery_called, executeQuery.
  unfold bind, emit, tryCatch.
  destruct (BigQueryService_initialize env _) as [[[]|e1] w1]; [|reflexivity].
  rewrite getDatasetLocation_uninterrupted. unfold bind.
  destruct (_getDatasetLocation_called remote w1) as [[[l|promise]|e2] w2];
    unfold ret at 1; cbn [resumedAtOnce]; unfold executeQuery_resumed;
    unfold bind, tryCatch.
  - unfold ret, throw, await, request, settled.
    destruct (execute remote (trace w2) query l); reflexivity.
  - destruct (_getDatasetLocation_resumed promise w2) as [[l|e3] w3];
      [|reflexivity].
    unfold ret, throw, await, request, settled.
    destruct (execute remote (trace w3) query l); reflexivity.
  - reflexivity.
Qed.

Lemma Forall_taken {A} (Q : A -> Prop) (l : list A) n :
  Forall Q l -> Forall Q (firstn n l).
Proof.
  intros H. revert n. induction H as [|x l Hx _ IH]; intros [|n]; cbn;
    constructor; auto.
Qed.

Lemma Forall_dropped {A} (Q : A -> Prop) (l : list A) n :
  Forall Q l -> Forall Q (skipn n l).
Proof.
  intros H. revert n. induction H as [|x l Hx Hl IH]; intros [|n]; cbn; auto.
Qed.

(** With a location in the store and no call waiting for the metadata, a
    turn leaves the warehouse service as it is, asks no metadata, and sends
    no query in another location. *)
Lemma turn_located c r (t : Turn) (p : Process Row) :
  bigquery_initialized (bigqueryService (world p)) = true ->
  datasetLocation (bigqueryService (world p)) = Some (c :: r) ->
  Forall (located (c :: r)) (suspended p) ->
  bigqueryService (world (turn env remote t p)) = bigqueryService (world p)
  /\ Forall (located (c :: r)) (suspended (turn env remote t p))
  /\ exists evs,
       trace (world (turn env remote t p)) = evs ++ trace (world p)
       /\ forallb (fun e => negb (isDatasetMetadata e)) evs = true
       /\ forall q l, In (RemoteQuery q l) evs -> l = c :: r.
Proof.
  intros Hi Hl Hs. destruct p as [[g [client ds loc init] tr] sus].
  cbn [world suspended bigqueryService bigquery_initialized datasetLocation
       trace] in *.
  subst init loc. destruct t as [query|i]; cbn [turn world suspended].
  - unfold executeQuery_called, BigQueryService_initialize,
      _getDatasetLocation_called.
    unfold bind, tryCatch, emit, getBigQuery, ret. cbn.
    split; [reflexivity|]. split.
    + apply Forall_app. split; [exact Hs|]. now constructor.
    + exists [CallExecuteQuery query]. split; [reflexivity|].
      split; [reflexivity|]. intros q l [H|[]]; discriminate H.
  - destruct (nth_error sus i) as [s|] eqn:En.
    2: { cbn. split; [reflexivity|]. split; [exact Hs|]. exists [].
         split; [reflexivity|]. split; [reflexivity|]. intros q l []. }
    assert (Hloc : located (c :: r) s).
    { apply nth_error_In in En. rewrite Forall_forall in Hs. now apply Hs. }
    destruct s as [query promise|query location|query promise];
      cbn [located] in Hloc.
    + now elim Hloc.
    + subst location. unfold executeQuery_resumed.
      unfold bind, tryCatch, request, ret. cbn -[firstn skipn].
      split; [reflexivity|]. split.
      * apply Forall_app. split; [now apply Forall_taken|].
        constructor; [exact Logic.I | now apply Forall_dropped].
      * exists [RemoteQuery query (c :: r)]. split; [reflexivity|].
        split; [reflexivity|].
        intros q l [H|[]]. now inversion H.
    + unfold executeQuery_resumed.
      unfold bind, tryCatch, settled, ret, throw.
      destruct promise as [rows|e]; cbn -[firstn skipn];
        (split; [reflexivity|]; split;
         [ apply Forall_app; split;
           [now apply Forall_taken | now apply Forall_dropped]
         | exists []; split; [reflexivity|]; split; [reflexivity|];
           intros q l [] ]).
Qed.

Lemma turns_located c r ts : forall p : Process Row,
  bigquery_initialized (bigqueryService (world p)) = true ->
  datasetLocation (bigqueryService (world p)) = Some (c :: r) ->
  Forall (located (c :: r)) (suspended p) ->
  bigqueryService (world (turns env remote ts p)) = bigqueryService (world p)
  /\ exists evs,
       trace (world (turns env remote ts p)) = evs ++ trace (world p)
       /\ forallb (fun e => negb (isDatasetMetadata e)) evs = true
       /\ forall q l, In (RemoteQuery q l) evs -> l = c :: r.
Proof.
  induction ts as [|t ts IH]; intros p Hi Hl Hs.
  - split; [reflexivity|]. exists []. split; [reflexivity|].
    split; [reflexivity|]. intros q l [].
  - cbn [turns fold_left].
    destruct (turn_located c r t p Hi Hl Hs) as (Hb & Hs' & evs1 & T1 & F1 & Q1).
    destruct (IH (turn env remote t p)) as (Hb' & evs2 & T2 & F2 & Q2);
      [now rewrite Hb | now rewrite Hb | exact Hs' |].
    unfold turns in *. split; [now rewrite Hb', Hb|].
    exists (evs2 ++ evs1). split; [now rewrite T2, T1, app_assoc|].
    split; [rewrite forallb_app; now rewrite F2, F1|].
    intros q l Hin. apply in_app_or in Hin as [Hin|Hin]; eauto.
Qed.

(** With a configured location, no turn of a process that has made no call
    yet asks the metadata or sends a query in another location. *)
Lemma turns_configured c r ts : forall p : Process Row,
  BIGQUERY_LOCATION env = Some (c :: r) ->
  bigquery_initialized (bigqueryService (world p)) = false ->
  suspended p = [] ->
  exists evs,
    trace (world (turns env remote ts p)) = evs ++ trace (world p)
    /\ forallb (fun e => negb (isDatasetMetadata e)) evs = true
    /\ forall q l, In (RemoteQuery q l) evs -> l = c :: r.
Proof.
  induction ts as [|t ts IH]; intros p He Hi Hs.
  - exists []. split; [reflexivity|]. split; [reflexivity|]. intros q l [].
  - cbn [turns fold_left].
    assert (H1 : exists evs1,
               trace (world (turn env remote t p)) = evs1 ++ trace (world p)
               /\ forallb (fun e => negb (isDatasetMetadata e)) evs1 = true
               /\ (forall q l, In (RemoteQuery q l) evs1 -> l = c :: r)
               /\ ((bigquery_initialized
                      (bigqueryService (world (turn env remote t p))) = false
                    /\ suspended (turn env remote t p) = [])
                   \/ (bigquery_initialized
                         (bigqueryService (world (turn env remote t p))) = true
                       /\ datasetLocation
                            (bigqueryService (world (turn env remote t p)))
                          = Some (c :: r)
                       /\ Forall (located (c :: r))
                            (suspended (turn env remote t p))))).
    { destruct p as [[g [client ds loc init] tr] sus].
      cbn [world suspended bigqueryService bigquery_initialized trace] in *.
      subst init sus. destruct t as [query|i]; cbn [turn world suspended].
      - unfold executeQuery_called, BigQueryService_initialize,
          _getDatasetLocation_called.
        unfold bind, tryCatch, emit, getBigQuery, putBigQuery, ret, throw.
        cbn [bigqueryService geminiService trace bigquery_initialized].
        rewrite He.
        destruct (truthy (BIGQUERY_PROJECT_ID env)); cbn;
          [destruct (truthy (BIGQUERY_DATASET env)); cbn|];
          exists [CallExecuteQuery query];
          (split; [reflexivity|]; split; [reflexivity|]; split;
           [intros q l [H|[]]; discriminate H|]); auto.
        right. split; [reflexivity|]. split; [reflexivity|].
        constructor; [reflexivity | constructor].
      - destruct i; cbn; exists []; (split; [reflexivity|]; split;
          [reflexivity|]; split; [intros q l []|]); auto. }
    destruct H1 as (evs1 & T1 & F1 & Q1 & [[Hi' Hs'] | (Hi' & Hl' & Hs')]).
    + destruct (IH (turn env remote t p) He Hi' Hs') as (evs2 & T2 & F2 & Q2).
      unfold turns in *.
      exists (evs2 ++ evs1). split; [now rewrite T2, T1, app_assoc|].
      split; [rewrite forallb_app; now rewrite F2, F1|].
      intros q l Hin. apply in_app_or in Hin as [Hin|Hin]; eauto.
    + destruct (turns_located c r ts (turn env remote t p) Hi' Hl' Hs')
        as (_ & evs2 & T2 & F2 & Q2).
      unfold turns in *.
      exists (evs2 ++ evs1). split; [now rewrite T2, T1, app_assoc|].
      split; [rewrite forallb_app; now rewrite F2, F1|].
      intros q l Hin. apply in_app_or in Hin as [Hin|Hin]; eauto.
Qed.

(** C7.  The location of the warehouse is resolved at most once and then
    stays as stored, as long as no call of [executeQuery] is made while
    another waits for the metadata of the dataset.  A configured location
    is the one the first query runs in, and no metadata is asked.  Without
    one, the first lookup, resumed as soon as the metadata are there, asks
    the dataset metadata once and stores what it returns: the reported
    location or, when none is reported or the request fails, ["US"].  Once
    a location is stored, whatever calls follow one after the other leave
    the stored value unchanged, ask no dataset metadata, and every
    [executeQuery] runs its query in that location.  The same holds of
    calls of [executeQuery] that overlap in any way, once a location is
    stored and no call waits for the metadata; and, with a configured
    location, of all the calls of a process from its first one on. *)
Theorem location_is_resolved_once_and_stable :
  (forall (w : World Row) query c r,
     bigquery_initialized (bigqueryService w) = false ->
     truthy (BIGQUERY_PROJECT_ID env) = true ->
     truthy (BIGQUERY_DATASET env) = true ->
     BIGQUERY_LOCATION env = Some (c :: r) ->
     exists res,
       executeQuery env remote query w
       = (res, {| geminiService := geminiService w;
                  bigqueryService := initializedBigQuery env;
                  trace := RemoteQuery query (c :: r)
                           :: CallExecuteQuery query :: trace w |})
       /\ datasetLocation (initializedBigQuery env) = Some (c :: r))
  /\
  (forall (w : World Row) d,
     bigquery (bigqueryService w) <> None ->
     datasetId (bigqueryService w) = Some d ->
     truthy (datasetLocation (bigqueryService w)) = false ->
     exists l,
       _getDatasetLocation remote w
       = (Ok l, {| geminiService := geminiService w;
                   bigqueryService := withLocationOf (bigqueryService w) l;
                   trace := RemoteDatasetMetadata d :: trace w |})
       /\ l <> []
       /\ l = match getDatasetMetadata remote (trace w) d with
              | Ok (Some (c :: r)) => c :: r
              | _ => js "US"
              end)
  /\
  (forall (w : World Row) c r calls,
     bigquery_initialized (bigqueryService w) = true ->
     datasetLocation (bigqueryService w) = Some (c :: r) ->
     let w' := performAll rt env remote calls w in
     datasetLocation (bigqueryService w') = Some (c :: r)
     /\ count isDatasetMetadata (trace w') = count isDatasetMetadata (trace w)
     /\ forall query,
          exists res,
            executeQuery env remote query w'
            = (res, {| geminiService := geminiService w';
                       bigqueryService := bigqueryService w';
                       trace := RemoteQuery query (c :: r)
                                :: CallExecuteQuery query :: trace w' |}))
  /\
  (forall (p : Process Row) c r ts,
     bigquery_initialized (bigqueryService (world p)) = true ->
     datasetLocation (bigqueryService (world p)) = Some (c :: r) ->
     Forall (located (c :: r)) (suspended p) ->
     let p' := turns env remote ts p in
     datasetLocation (bigqueryService (world p')) = Some (c :: r)
     /\ count isDatasetMetadata (trace (world p'))
        = count isDatasetMetadata (trace (world p))
     /\ exists evs,
          trace (world p') = evs ++ trace (world p)
          /\ forall q l, In (RemoteQuery q l) evs -> l = c :: r)
  /\
  (forall (p : Process Row) c r ts,
     BIGQUERY_LOCATION env = Some (c :: r) ->
     bigquery_initialized (bigqueryService (world p)) = false ->
     suspended p = [] ->
     let p' := turns env remote ts p in
     count isDatasetMetadata (trace (world p'))
     = count isDatasetMetadata (trace (world p))
     /\ exists evs,
          trace (world p') = evs ++ trace (world p)
          /\ forall q l, In (RemoteQuery q l) evs -> l = c :: r).
Proof.
  split; [|split; [|split; [|split]]].
  - intros; now apply executeQuery_configured_location.
  - intros w d Hc Hd Hl.
    destruct (getDatasetLocation_first w Hl) as (l & evs & R & Hne & _ & Hm).
    destruct (Hm d Hc Hd) as [-> ->]. eexists. split; [exact R|].
    split.
    + destruct (getDatasetMetadata remote (trace w) d) as [[[|c r]|]|];
        discriminate.
    + destruct (getDatasetMetadata remote (trace w) d) as [[[|c r]|]|];
        reflexivity.
  - intros w c r calls Hi Hl w'.
    destruct (located_is_stable w c r calls Hi Hl) as [Hb Hn].
    fold w' in Hb, Hn.
    assert (Hl' : datasetLocation (bigqueryService w') = Some (c :: r))
      by now rewrite Hb.
    split; [exact Hl'|]. split; [exact Hn|].
    intros query. apply executeQuery_located; [now rewrite Hb | exact Hl'].
  - intros p c r ts Hi Hl Hs p'.
    destruct (turns_located c r ts p Hi Hl Hs) as (Hb & evs & T & F & Q).
    fold p' in Hb, T. split; [now rewrite Hb|].
    split; [exact (count_grown _ _ _ _ T F)|]. now exists evs.
  - intros p c r ts He Hi Hs p'.
    destruct (turns_configured c r ts p He Hi Hs) as (evs & T & F & Q).
    fold p' in T. split; [exact (count_grown _ _ _ _ T F)|]. now exists evs.
Qed.

(** C10.  The clean-up deletes the fence markers wherever they stand:
    whatever text the model answers, the SQL that [generateSQL] returns is
    the cleaned text and contains neither [```] nor [```sql]. *)
Theorem generated_sql_has_no_fence :
  (forall text,
     includes FENCE (cleanSql text) = false
     /\ includes FENCE_SQL (cleanSql text) = false)
  /\
  (forall userQuery tableSchemas d (w : World Row) sql w',
     generateSQL env remote userQuery tableSchemas d w = (Ok sql, w') ->
     (exists text, sql = cleanSql text)
     /\ includes FENCE sql = false
     /\ includes FENCE_SQL sql = false).
Proof.
  assert (F : forall text, includes FENCE (cleanSql text) = false
                           /\ includes FENCE_SQL (cleanSql text) = false).
  { intros text. split; [apply cleanSql_no_fence|].
    change FENCE_SQL with (FENCE ++ js "sql").
    apply includes_longer, cleanSql_no_fence. }
  split; [exact F|].
  intros userQuery tableSchemas d w sql w' H.
  destruct (generateSQL_returns _ _ _ _ _ _ H) as [text ->].
  split; [now exists text | apply F].
Qed.

End BackendProofs.

(* ================================================================== *)
(** * The claims on concrete requests *)
(* ================================================================== *)

Lemma invalid_message_short_circuits_witness :
  chat node configured (answering countSql) (BodyWith (VString (js "   "))) startup
  = ({| status := 400;
        payload := Failure
                     (js "Message is required and must be a non-empty string")
                     None None |}, startup).
Proof.
  apply invalid_message_short_circuits.
  intros s H; injection H as <-; reflexivity.
Defined.

Lemma unreadable_body_is_internal_error_witness :
  chat node configured (answering countSql) BodyUndefined startup
  = ({| status := 500;
        payload := Failure (js "Internal server error")
                     (Some (v8DestructureError BodyUndefined)) None |}, startup).
Proof.
  apply (unreadable_body_is_internal_error CountRow node configured
           (answering countSql) BodyUndefined startup).
  left; reflexivity.
Defined.

Lemma non_select_query_is_rejected_witness :
  exists w2,
    chat node configured (answering (js "DROP TABLE x"))
      (BodyWith (VString countMessage)) startup
    = ({| status := 400;
          payload := Failure
                       (js "Only SELECT queries are allowed for security reasons")
                       None (Some (js "DROP TABLE x")) |}, w2)
    /\ count isExecution (trace w2) = count isExecution (trace (@startup CountRow)).
Proof.
  eexists.
  eapply (non_select_query_is_rejected CountRow node configured
            (answering (js "DROP TABLE x")) countMessage startup).
  - reflexivity.
  - reflexivity.
  - reflexivity.
  - discriminate.
  - reflexivity.
Defined.

(** C1 as stated fails on an empty generation: a model answer that is
    only a fence is cleaned to the empty string, which does not contain
    [SELECT], and the response is the 500 of the empty-result guard. *)
Lemma empty_generation_is_not_400 :
  ~ (forall (message : jsstring) (w : World CountRow) schemas w1 sql w2,
       rejected (VString message) = false ->
       fetchSchemas configured (answering (js "```")) w = (Ok schemas, w1) ->
       generateQuery configured (answering (js "```")) message schemas w1
       = (Ok sql, w2) ->
       includes SELECT (toUpperCase node (trim sql)) = false ->
       status (fst (chat node configured (answering (js "```"))
                      (BodyWith (VString message)) w)) = 400).
Proof.
  intros H.
  specialize (H countMessage startup _ _ _ _ eq_refl eq_refl eq_refl eq_refl).
  vm_compute in H. discriminate H.
Qed.

Lemma successful_request_response_witness :
  exists explanation w4,
    chat node configured (answering countSql)
      (BodyWith (VString countMessage)) startup
    = ({| status := 200;
          payload := Success countMessage countSql explanation countRows 1 |},
       w4).
Proof.
  eapply (successful_request_response CountRow node configured
            (answering countSql) countMessage startup).
  - reflexivity.
  - reflexivity.
  - reflexivity.
  - reflexivity.
  - reflexivity.
  - reflexivity.
Defined.

(** C8 as stated fails when the rows cannot be serialized: the query is
    generated, passes the gate and is executed, [res.json] throws on the
    rows, and the response is the 500 of the outer [catch]. *)
Lemma unserializable_rows_are_not_served :
  ~ (forall (message : jsstring) (w : World BigIntRow) schemas w1 sql w2 rows w3,
       rejected (VString message) = false ->
       fetchSchemas configured (answering countSql) w = (Ok schemas, w1) ->
       generateQuery configured (answering countSql) message schemas w1
       = (Ok sql, w2) ->
       includes SELECT (toUpperCase nodeOnBigInt (trim sql)) = true ->
       executeQuery configured (answering countSql) sql w2 = (Ok rows, w3) ->
       status (fst (chat nodeOnBigInt configured (answering countSql)
                      (BodyWith (VString message)) w)) = 200).
Proof.
  intros H.
  specialize (H countMessage startup _ _ _ _ _ _
                eq_refl eq_refl eq_refl eq_refl eq_refl).
  vm_compute in H. discriminate H.
Qed.

Example unserializable_rows_response :
  fst (chat nodeOnBigInt configured (answering countSql)
         (BodyWith (VString countMessage)) startup)
  = {| status := 500;
       payload := Failure (js "Internal server error")
                    (Some (js "Do not know how to serialize a BigInt")) None |}
  /\ In (RemoteQuery countSql (js "EU"))
        (trace (snd (chat nodeOnBigInt configured (answering countSql)
                       (BodyWith (VString countMessage)) startup))).
Proof. split; vm_compute; [reflexivity | right; now left]. Qed.

(** C2.  With a model that fails on the explanation prompt the request is
    still served with 200, but the explanation is the fallback of
    [explainResults], ["Query executed successfully."], which does not
    contain the number of rows; the fallback of the route, which does,
    is never reached. *)
Theorem failed_explanation_fallback_has_no_count :
  fst (chat node configured (unexplained countSql)
         (BodyWith (VString countMessage)) startup)
  = {| status := 200;
       payload := Success countMessage countSql
                    (js "Query executed successfully.") countRows 1 |}
  /\ includes (decimal (List.length countRows))
              (js "Query executed successfully.") = false.
Proof. split; vm_compute; reflexivity. Qed.

(** C4 as stated fails when the schema provider raises because the dataset
    identifier is not configured: [getDatasetId] then raises as well and
    [generateSQL] is not called. *)
Lemma unconfigured_schema_failure_skips_generation :
  ~ (forall (env : Env) (message : jsstring) (w : World CountRow) e w1,
       rejected (VString message) = false ->
       getAllTableSchemas env (answering countSql) w = (Throw e, w1) ->
       exists d,
         In (CallGenerateSQL message [] d)
            (trace (snd (chat node env (answering countSql)
                           (BodyWith (VString message)) w)))).
Proof.
  intros H.
  destruct (H withoutDataset countMessage startup _ _ eq_refl eq_refl)
    as [d Hin].
  vm_compute in Hin. destruct Hin as [Hin | [Hin | []]]; discriminate Hin.
Qed.

Lemma schema_failure_degrades_to_empty_context_witness :
  exists e w1,
    getAllTableSchemas configured (unlisted countSql) startup = (Throw e, w1)
    /\ chat node configured (unlisted countSql)
         (BodyWith (VString countMessage)) startup
       = catchAll (synthesize node configured (unlisted countSql) countMessage [])
                  w1
    /\ exists d evs,
         trace (snd (chat node configured (unlisted countSql)
                       (BodyWith (VString countMessage)) startup))
         = evs ++ trace w1
         /\ In (CallGenerateSQL countMessage [] d) evs.
Proof.
  eexists; eexists. split; [reflexivity|].
  eapply (schema_failure_degrades_to_empty_context CountRow node configured
            (unlisted countSql) countMessage startup).
  - reflexivity.
  - reflexivity.
  - reflexivity.
  - reflexivity.
Defined.

(** C5.  The clean-up of [generateSQL] is a normalization: the fenced
    answer is cleaned to [SELECT 1], which is the query that reaches the
    warehouse; a text without fence and without surrounding white space is
    left as it is; and cleaning twice is cleaning once. *)
Theorem cleanSql_is_a_normalization :
  cleanSql fencedSql = js "SELECT 1"
  /\ In (RemoteQuery (js "SELECT 1") (js "EU"))
        (trace (snd (chat node configured (answering fencedSql)
                       (BodyWith (VString countMessage)) startup)))
  /\ (forall s, includes FENCE s = false -> trim s = s -> cleanSql s = s)
  /\ (forall s, cleanSql (cleanSql s) = cleanSql s).
Proof.
  split; [reflexivity|]. split; [|split].
  - vm_compute. do 2 right. now left.
  - exact cleanSql_clean.
  - intros s. apply cleanSql_clean;
      [apply cleanSql_no_fence | apply cleanSql_trimmed].
Qed.

Lemma cleanSql_is_a_normalization_witness :
  cleanSql countSql = countSql.
Proof.
  apply (proj1 (proj2 (proj2 cleanSql_is_a_normalization)) countSql);
    reflexivity.
Defined.

(** C6 as stated fails without the API key: the process serves requests,
    and each one is answered with an error naming the absent variable. *)
Lemma missing_api_key_is_a_request_error :
  ~ (forall (env : Env) (body : ReqBody) (name : jsstring),
       missingVariable env = Some name ->
       forall error generatedQuery,
         payload (fst (chat node env (answering countSql) body startup))
         <> Failure error
              (Some (name ++ js " environment variable is not set"))
              generatedQuery).
Proof.
  intros H.
  apply (H withoutApiKey (BodyWith (VString countMessage)) (js "GEMINI_API_KEY")
           eq_refl (js "Failed to generate SQL query") None).
  vm_compute. reflexivity.
Qed.

Lemma missing_configuration_fails_each_request_witness :
  fst (chat node withoutApiKey (answering countSql)
         (BodyWith (VString countMessage))
         (performAll node withoutApiKey (answering countSql)
            [Chat (BodyWith (VString countMessage)); GetTables] startup))
  = {| status := 500;
       payload := Failure (js "Failed to generate SQL query")
                    (Some (js "GEMINI_API_KEY environment variable is not set"))
                    None |}.
Proof.
  apply (missing_configuration_fails_each_request CountRow node withoutApiKey
           (answering countSql) (js "GEMINI_API_KEY")
           [Chat (BodyWith (VString countMessage)); GetTables] countMessage).
  - reflexivity.
  - reflexivity.
Defined.

Lemma location_is_resolved_once_and_stable_witness :
  (exists res,
     executeQuery withLocation (answering countSql) countSql startup
     = (res, {| geminiService := newGeminiService;
                bigqueryService := initializedBigQuery withLocation;
                trace := [RemoteQuery countSql (js "europe-west1");
                          CallExecuteQuery countSql] |}))
  /\
  (let w := snd (getDatasetId (Row := CountRow) configured startup) in
   exists l,
     fst (_getDatasetLocation (answering countSql) w) = Ok l /\ l <> [])
  /\
  (let w := snd (executeQuery configured (answering countSql) countSql startup) in
   let w' := performAll node configured (answering countSql)
               [Chat (BodyWith (VString countMessage)); ExecuteQuery (js "SELECT 1")]
               w in
   datasetLocation (bigqueryService w') = Some (js "EU")
   /\ count isDatasetMetadata (trace w') = count isDatasetMetadata (trace w))
  /\
  (let p := {| world := snd (executeQuery configured (flaky countSql) countSql
                               startup);
               suspended := [] |} in
   let p' := turns configured (flaky countSql)
               [Called countSql; Called (js "SELECT 1"); Resumed 1; Resumed 0;
                Resumed 0]
               p in
   datasetLocation (bigqueryService (world p')) = Some (js "EU")
   /\ count isDatasetMetadata (trace (world p'))
      = count isDatasetMetadata (trace (world p)))
  /\
  (let p := {| world := @startup CountRow; suspended := [] |} in
   let p' := turns withLocation (flaky countSql)
               [Called countSql; Called (js "SELECT 1"); Resumed 0; Resumed 1;
                Resumed 0]
               p in
   count isDatasetMetadata (trace (world p'))
   = count isDatasetMetadata (trace (world p))).
Proof.
  split; [|split; [|split; [|split]]].
  - destruct (proj1 (location_is_resolved_once_and_stable
                       CountRow node withLocation (answering countSql))
                startup countSql 101%N (js "urope-west1")
                eq_refl eq_refl eq_refl eq_refl) as [res [H _]].
    exists res. exact H.
  - intros w.
    destruct (proj1 (proj2 (location_is_resolved_once_and_stable
                              CountRow node configured (answering countSql)))
                w (js "dataset")
                ltac:(discriminate) eq_refl eq_refl) as (l & R & Hne & _).
    exists l. split; [now rewrite R | exact Hne].
  - intros w w'.
    destruct (proj1 (proj2 (proj2 (location_is_resolved_once_and_stable
                                     CountRow node configured
                                     (answering countSql))))
                w 69%N [85%N]
                [Chat (BodyWith (VString countMessage)); ExecuteQuery (js "SELECT 1")]
                eq_refl eq_refl) as (Hl & Hn & _).
    split; [exact Hl | exact Hn].
  - intros p p'.
    destruct (proj1 (proj2 (proj2 (proj2 (location_is_resolved_once_and_stable
                                            CountRow node configured
                                            (flaky countSql)))))
                p 69%N [85%N]
                [Called countSql; Called (js "SELECT 1"); Resumed 1; Resumed 0;
                 Resumed 0]
                eq_refl eq_refl (Forall_nil _)) as (Hl & Hn & _).
    split; [exact Hl | exact Hn].
  - intros p p'.
    exact (proj1 (proj2 (proj2 (proj2 (proj2
                    (location_is_resolved_once_and_stable
                       CountRow node withLocation (flaky countSql)))))
                    p 101%N (js "urope-west1")
                    [Called countSql; Called (js "SELECT 1"); Resumed 0;
                     Resumed 1; Resumed 0]
                    eq_refl eq_refl eq_refl)).
Defined.

(** C7 as stated fails for calls that overlap: a call of [executeQuery]
    made while another waits for the metadata of the dataset finds no
    location in the store and asks for the metadata again. *)
Lemma overlapping_queries_resolve_twice :
  ~ (forall (remote : Remote CountRow) (ts : list Turn),
       count isDatasetMetadata
         (trace (world (turns configured remote ts
                          {| world := startup; suspended := [] |}))) <= 1).
Proof.
  intros H.
  specialize (H (flaky countSql) [Called countSql; Called (js "SELECT 1")]).
  vm_compute in H. lia.
Qed.

(** When the two lookups are resumed, the second overwrites what the first
    has stored: the first query runs in [EU]; the second, whose metadata
    request failed, in [US], which is what the store keeps. *)
Example overlapping_lookups_overwrite :
  let p := {| world := @startup CountRow; suspended := [] |} in
  let ts := [Called countSql; Called (js "SELECT 1"); Resumed 0] in
  datasetLocation
    (bigqueryService (world (turns configured (flaky countSql) ts p)))
  = Some (js "EU")
  /\ datasetLocation
       (bigqueryService
          (world (turns configured (flaky countSql) (ts ++ [Resumed 1]) p)))
     = Some (js "US")
  /\ trace (world (turns configured (flaky countSql)
                     (ts ++ [Resumed 1; Resumed 0; Resumed 1]) p))
     = [ RemoteQuery (js "SELECT 1") (js "US");
         RemoteQuery countSql (js "EU");
         RemoteDatasetMetadata (js "dataset");
         CallExecuteQuery (js "SELECT 1");
         RemoteDatasetMetadata (js "dataset");
         CallExecuteQuery countSql ].
Proof. vm_compute. repeat split. Qed.

Lemma generated_sql_has_no_fence_witness :
  exists sql w',
    generateSQL configured (answering (js "SELECT '```' AS f, '`````sql`' AS g"))
      countMessage [] None startup = (Ok sql, w')
    /\ includes FENCE sql = false.
Proof.
  eexists; eexists. split; [reflexivity|].
  exact (proj1 (proj2 (proj2 (generated_sql_has_no_fence CountRow configured
           (answering (js "SELECT '```' AS f, '`````sql`' AS g")))
           countMessage [] None startup _ _ eq_refl))).
Defined.

(* ================================================================== *)
(** * Further properties of the services and the route *)
(* ================================================================== *)

Section RouteProperties.

Variable Row : Type.
Variable rt : Runtime Row.
Variable env : Env.
Variable remote : Remote Row.

(** ** Initialization *)

Lemma BigQueryService_initialize_run (w : World Row) r w' :
  BigQueryService_initialize env w = (r, w') ->
  trace w' = trace w /\ geminiService w' = geminiService w /\
  match r with
  | Ok _ => bigquery_initialized (bigqueryService w') = true
  | Throw e =>
      w' = w /\ bigquery_initialized (bigqueryService w) = false /\
      ((truthy (BIGQUERY_PROJECT_ID env) = false /\
        e = js "BIGQUERY_PROJECT_ID environment variable is not set")
       \/ (truthy (BIGQUERY_PROJECT_ID env) = true /\
           truthy (BIGQUERY_DATASET env) = false /\
           e = js "BIGQUERY_DATASET environment variable is not set"))
  end.
Proof.
  unfold BigQueryService_initialize, bind, getBigQuery, putBigQuery, ret, throw.
  destruct (bigquery_initialized (bigqueryService w)) eqn:E.
  - intros H; inversion H; subst. auto.
  - destruct (truthy (BIGQUERY_PROJECT_ID env)) eqn:Ep; cbn [negb];
      [destruct (truthy (BIGQUERY_DATASET env)) eqn:Ed; cbn [negb]|];
      intros H; inversion H; subst; cbn; auto 10.
Qed.

Lemma GeminiService_initialize_run (w : World Row) r w' :
  GeminiService_initialize env w = (r, w') ->
  trace w' = trace w /\ bigqueryService w' = bigqueryService w /\
  match r with
  | Ok _ => gemini_initialized (geminiService w') = true
  | Throw e =>
      w' = w /\ gemini_initialized (geminiService w) = false /\
      truthy (GEMINI_API_KEY env) = false /\
      e = js "GEMINI_API_KEY environment variable is not set"
  end.
Proof.
  unfold GeminiService_initialize, bind, getGemini, putGemini, ret, throw.
  destruct (gemini_initialized (geminiService w)) eqn:E.
  - intros H; inversion H; subst. auto.
  - destruct (truthy (GEMINI_API_KEY env)) eqn:Ek; cbn [negb];
      intros H; inversion H; subst; cbn; auto 10.
Qed.

(** ** Running a query *)

Lemma executeQuery_run query (w : World Row) res w' :
  executeQuery env remote query w = (res, w') ->
  (trace w' = CallExecuteQuery query :: trace w /\
   bigquery_initialized (bigqueryService w) = false /\
   (res = Throw (js "BIGQUERY_PROJECT_ID environment variable is not set")
    \/ res = Throw (js "BIGQUERY_DATASET environment variable is not set")))
  \/
  (exists l evs,
     l <> [] /\
     (evs = [] \/ exists d, evs = [RemoteDatasetMetadata d]) /\
     trace w' = RemoteQuery query l :: evs ++ CallExecuteQuery query :: trace w /\
     res = rethrowAs (js "BigQuery execution failed: ")
             (execute remote (evs ++ CallExecuteQuery query :: trace w) query l)).
Proof.
  unfold executeQuery. unfold bind at 1, emit.
  set (w0 := {| geminiService := geminiService w;
                bigqueryService := bigqueryService w;
                trace := CallExecuteQuery query :: trace w |}).
  unfold bind at 1.
  destruct (BigQueryService_initialize env w0) as [[[]|e] w1] eqn:Ei;
    apply BigQueryService_initialize_run in Ei; destruct Ei as (T1 & _ & Hi).
  - intros H. right.
    assert (L : exists l evs,
               _getDatasetLocation remote w1
               = (Ok l, {| geminiService := geminiService w1;
                           bigqueryService :=
                             match datasetLocation (bigqueryService w1) with
                             | Some (_ :: _) => bigqueryService w1
                             | _ => withLocationOf (bigqueryService w1) l
                             end;
                           trace := evs ++ trace w1 |})
               /\ l <> []
               /\ (evs = [] \/ exists d, evs = [RemoteDatasetMetadata d])).
    { destruct (datasetLocation (bigqueryService w1)) as [[|c r]|] eqn:El.
      2: { exists (c :: r), []. rewrite (getDatasetLocation_cached _ remote w1 c r El).
           destruct w1; repeat split; auto; discriminate. }
      all: destruct (getDatasetLocation_first _ remote w1) as (l & evs & R & Hne & Hev & _);
        [now rewrite El|]; exists l, evs; auto. }
    destruct L as (l & evs & R & Hne & Hev).
    unfold tryCatch, bind, await in H. rewrite R in H. cbn [trace] in H.
    exists l, evs. rewrite T1 in H. subst w0. cbn [trace] in H.
    destruct (execute remote (evs ++ CallExecuteQuery query :: trace w) query l)
      eqn:Ex; inversion H; subst; cbn [trace rethrowAs]; auto.
  - destruct Hi as (-> & Hu & He). intros H; inversion H; subst. left.
    subst w0; cbn in *. repeat split; auto.
    destruct He as [[_ ->] | (_ & _ & ->)]; auto.
Qed.

(** ** The outcomes of the route *)

Lemma quiet_app (a b : Trace Row) : quiet a -> quiet b -> quiet (a ++ b).
Proof. unfold quiet. intros Ha Hb. now rewrite forallb_app, Ha, Hb. Qed.

Lemma quiet_no_query (evs : Trace Row) q l :
  quiet evs -> ~ In (RemoteQuery q l) evs.
Proof.
  unfold quiet. intros H Hin.
  rewrite forallb_forall in H. specialize (H _ Hin). discriminate H.
Qed.

Lemma quiet_count (evs : Trace Row) : quiet evs -> count isRemoteQuery evs = 0.
Proof.
  unfold quiet, count. induction evs as [|e evs IH]; auto.
  cbn [forallb filter]. intros H; apply andb_true_iff in H as [H1 H2].
  destruct e; try discriminate H1; cbn [isRemoteQuery]; auto.
Qed.

Lemma quiet_only sql (evs : Trace Row) : quiet evs -> OnlyQuery sql evs.
Proof.
  intros H. split; [rewrite (quiet_count _ H); lia|].
  intros q l Hin. now elim (quiet_no_query _ q l H).
Qed.

Lemma only_between sql (a x b : Trace Row) :
  quiet a -> OnlyQuery sql x -> quiet b -> OnlyQuery sql (a ++ x ++ b).
Proof.
  intros Ha [Hc Hx] Hb. split.
  - rewrite !count_app, (quiet_count _ Ha), (quiet_count _ Hb). lia.
  - intros q l Hin. apply in_app_or in Hin as [Hin | Hin];
      [now elim (quiet_no_query _ q l Ha)|].
    apply in_app_or in Hin as [Hin | Hin]; auto.
    now elim (quiet_no_query _ q l Hb).
Qed.

Lemma only_executed sql l (loc : Trace Row) :
  l <> [] -> loc = [] \/ (exists d, loc = [RemoteDatasetMetadata d]) ->
  OnlyQuery sql (RemoteQuery sql l :: loc ++ [CallExecuteQuery sql]).
Proof.
  intros Hl [-> | [d ->]]; (split; [cbv; lia|]);
    intros q l' Hin; cbn in Hin;
    repeat (destruct Hin as [Hin | Hin]; [inversion Hin; subst; auto|]);
    try discriminate; try now elim Hin.
Qed.

Lemma quiet_before_gate message schemas (w w1 w2 : World Row) r1 r2 :
  fetchSchemas env remote w = (r1, w1) ->
  generateQuery env remote message schemas w1 = (r2, w2) ->
  exists evs, trace w2 = evs ++ trace w /\ quiet evs.
Proof.
  intros Hs Hg.
  assert (K1 : Keeps (fun _ => True) (fun _ => True)
                 (fun e => negb (isExecution e)) (fetchSchemas env remote)).
  { apply keeps_fetchSchemas; auto. intros e He _; now rewrite He. }
  assert (K2 : Keeps (fun _ => True) (fun _ => True)
                 (fun e => negb (isExecution e))
                 (generateQuery env remote message schemas)).
  { apply keeps_generateQuery; auto. intros e He _; now rewrite He. }
  destruct (K1 _ _ _ Logic.I Logic.I Hs) as (_ & _ & evs1 & T1 & F1).
  destruct (K2 _ _ _ Logic.I Logic.I Hg) as (_ & _ & evs2 & T2 & F2).
  exists (evs2 ++ evs1). split; [now rewrite T2, T1, app_assoc|].
  now apply quiet_app.
Qed.

Lemma quiet_explainResults message sql rows (w w' : World Row) r :
  explainResults rt env remote message sql rows w = (r, w') ->
  exists evs, trace w' = evs ++ trace w /\ quiet evs.
Proof.
  intros H.
  assert (K : Keeps (fun _ => True) (fun _ => True)
                (fun e => negb (isExecution e))
                (explainResults rt env remote message sql rows)).
  { apply keeps_explainResults; auto. intros e He _; now rewrite He. }
  destruct (K _ _ _ Logic.I Logic.I H) as (_ & _ & evs & T & F).
  now exists evs.
Qed.

Lemma accepted_is_string v :
  rejected v = false -> exists message, v = VString message.
Proof.
  destruct v; try discriminate; eauto.
  - destruct b; discriminate.
  - unfold rejected; cbn. rewrite orb_true_r. discriminate.
Qed.

Lemma gate_passed text :
  (Nat.eqb (List.length (cleanSql text)) 0
   || Nat.eqb (List.length (trim (cleanSql text))) 0) = false ->
  includes SELECT (toUpperCase rt (trim (cleanSql text))) = true ->
  Gated rt (cleanSql text).
Proof.
  rewrite cleanSql_trimmed. intros Hg Hs.
  repeat split; auto using cleanSql_trimmed, cleanSql_no_fence.
  intros E. rewrite E in Hg. discriminate Hg.
Qed.

(** Every response of the route is one of eight, each with what has been
    recorded while it was computed. *)
Lemma chat_outcomes body (w : World Row) :
  exists evs,
    trace (snd (chat rt env remote body w)) = evs ++ trace w /\
    let response := fst (chat rt env remote body w) in
    (evs = [] /\
     exists e, response
               = {| status := 500;
                    payload := Failure (js "Internal server error") (Some e) None |})
    \/ (evs = [] /\
        response
        = {| status := 400;
             payload := Failure
                          (js "Message is required and must be a non-empty string")
                          None None |})
    \/ (quiet evs /\
        exists e, response
                  = {| status := 500;
                       payload := Failure (js "Failed to generate SQL query")
                                          (Some e) None |})
    \/ (quiet evs /\
        response
        = {| status := 500;
             payload := Failure (js "Generated SQL query is empty") None None |})
    \/ (quiet evs /\
        exists sql,
          response
          = {| status := 400;
               payload := Failure
                            (js "Only SELECT queries are allowed for security reasons")
                            None (Some sql) |})
    \/ (exists sql e,
          Gated rt sql /\ OnlyQuery sql evs /\
          response
          = {| status := 500;
               payload := Failure (js "Failed to execute query on BigQuery")
                                  (Some e) (Some sql) |})
    \/ (exists message sql explanation rows,
          body = BodyWith (VString message) /\
          Gated rt sql /\ OnlyQuery sql evs /\
          count isRemoteQuery evs = 1 /\
          response
          = {| status := 200;
               payload := Success message sql explanation rows
                                  (List.length rows) |})
    \/ (exists sql rows e,
          Gated rt sql /\ OnlyQuery sql evs /\
          count isRemoteQuery evs = 1 /\
          JSON_stringify rt rows = Throw e /\
          response
          = {| status := 500;
               payload := Failure (js "Internal server error") (Some e) None |}).
Proof.
  destruct (chat rt env remote body w) as [response w'] eqn:E. cbn [fst snd].
  unfold chat, catchAll, chatBody in E.
  destruct body as [| |v]; cbn [destructure] in E.
  1, 2: inversion E; subst; exists []; split; [reflexivity|]; left;
    split; [reflexivity|]; eexists; reflexivity.
  unfold bind at 1, ret at 1 in E.
  destruct (rejected v) eqn:Hr.
  { inversion E; subst. exists []. split; [reflexivity|]. right; left.
    split; reflexivity. }
  destruct (accepted_is_string v Hr) as [message ->]. cbn [asString] in E.
  unfold bind at 1 in E.
  destruct (fetchSchemas_total _ env remote w) as (schemas & w1 & Es).
  rewrite Es in E.
  unfold synthesize, bind at 1, tryCatch, bind at 1 in E.
  destruct (generateQuery env remote message schemas w1) as [[sql|e] w2] eqn:Eg;
    destruct (quiet_before_gate _ _ _ _ _ _ _ Es Eg) as (evs0 & T0 & Q0).
  2: { inversion E; subst. exists evs0. split; [exact T0|]. do 2 right; left.
       split; [exact Q0|]. eexists; reflexivity. }
  unfold ret at 1 in E. cbv beta iota in E. unfold gateAndExecute in E.
  destruct (Nat.eqb (List.length sql) 0 || Nat.eqb (List.length (trim sql)) 0)
    eqn:Hg.
  { inversion E; subst. exists evs0. split; [exact T0|]. do 3 right; left.
    split; [exact Q0|]. reflexivity. }
  destruct (includes SELECT (toUpperCase rt (trim sql))) eqn:Hs; cbn [negb] in E.
  2: { inversion E; subst. exists evs0. split; [exact T0|]. do 4 right; left.
       split; [exact Q0|]. eexists; reflexivity. }
  destruct (generateQuery_returns _ _ _ _ _ _ _ _ Eg) as [text ->].
  pose proof (gate_passed text Hg Hs) as HG.
  unfold bind at 1, tryCatch, bind at 1 in E.
  destruct (executeQuery env remote (cleanSql text) w2) as [[rows|e] w3] eqn:Ex;
    destruct (executeQuery_run _ _ _ _ Ex)
      as [(T3 & _ & [R | R]) | (l & loc & Hl & Hloc & T3 & R)];
    try discriminate R.
  - unfold ret at 1 in E. cbv beta iota in E.
    unfold respond, res_json, bind, tryCatch in E.
    assert (Hx : OnlyQuery (cleanSql text)
                   (RemoteQuery (cleanSql text) l
                    :: loc ++ [CallExecuteQuery (cleanSql text)]))
      by now apply only_executed.
    assert (Hone : count isRemoteQuery
                     (RemoteQuery (cleanSql text) l
                      :: loc ++ [CallExecuteQuery (cleanSql text)]) = 1)
      by (destruct Hloc as [-> | [d ->]]; reflexivity).
    destruct (explainResults rt env remote message (cleanSql text) rows w3)
      as [[explanation|e] w4] eqn:Ee;
      destruct (quiet_explainResults _ _ _ _ _ _ Ee) as (evs4 & T4 & Q4);
      unfold ret in E;
      destruct (JSON_stringify rt rows) as [json|ej] eqn:Ej;
      unfold ret, throw in E; inversion E; subst;
      (exists (evs4 ++ (RemoteQuery (cleanSql text) l
                        :: loc ++ [CallExecuteQuery (cleanSql text)]) ++ evs0);
       split;
       [ rewrite T4, T3, T0; repeat first [rewrite <- app_assoc | progress cbn [app]];
         reflexivity
       | first
           [ do 6 right; left; exists message, (cleanSql text); eexists;
             exists rows;
             split; [reflexivity|]; split; [exact HG|];
             split; [now apply only_between|];
             split; [|reflexivity];
             rewrite !count_app, Hone, (quiet_count _ Q4), (quiet_count _ Q0);
             reflexivity
           | do 7 right; exists (cleanSql text), rows, ej;
             split; [exact HG|];
             split; [now apply only_between|];
             split; [|split; [exact Ej | reflexivity]];
             rewrite !count_app, Hone, (quiet_count _ Q4), (quiet_count _ Q0);
             reflexivity ] ]).
  - unfold ret in E; inversion E; subst.
    exists ([CallExecuteQuery (cleanSql text)] ++ evs0).
    split; [rewrite T3, T0; reflexivity|].
    do 5 right; left. exists (cleanSql text). eexists. split; [exact HG|].
    split; [|reflexivity].
    apply (only_between _ [] [CallExecuteQuery (cleanSql text)] evs0);
      [reflexivity | | exact Q0].
    split; [cbv; lia | intros q l' [H | []]; discriminate H].
  - unfold ret in E; inversion E; subst.
    exists ([CallExecuteQuery (cleanSql text)] ++ evs0).
    split; [rewrite T3, T0; reflexivity|].
    do 5 right; left. exists (cleanSql text). eexists. split; [exact HG|].
    split; [|reflexivity].
    apply (only_between _ [] [CallExecuteQuery (cleanSql text)] evs0);
      [reflexivity | | exact Q0].
    split; [cbv; lia | intros q l' [H | []]; discriminate H].
  - unfold ret in E; inversion E; subst.
    exists ((RemoteQuery (cleanSql text) l
             :: loc ++ [CallExecuteQuery (cleanSql text)]) ++ evs0).
    split; [rewrite T3, T0; repeat first [rewrite <- app_assoc | progress cbn [app]];
            reflexivity|].
    do 5 right; left. exists (cleanSql text). eexists. split; [exact HG|].
    split; [|reflexivity].
    apply (only_between _ [] (RemoteQuery (cleanSql text) l
                              :: loc ++ [CallExecuteQuery (cleanSql text)]) evs0);
      [reflexivity | now apply only_executed | exact Q0].
Qed.

(** X1.  The status of a response tells its document: 200 goes with the
    success document, whose [resultCount] is the number of its rows, and
    with nothing else; every other response has status 400 or 500 and an
    error document with a non-empty [error] text. *)
Theorem response_status_matches_payload body (w : World Row) :
  let response := fst (chat rt env remote body w) in
  (status response = 200 /\
   exists message sql explanation rows,
     payload response = Success message sql explanation rows (List.length rows))
  \/ ((status response = 400 \/ status response = 500) /\
      exists error details generatedQuery,
        payload response = Failure error details generatedQuery /\ error <> []).
Proof.
  destruct (chat_outcomes body w) as (evs & _ & H). cbv zeta in *.
  destruct H as [(_ & e & ->) | [(_ & ->) | [(_ & e & ->) | [(_ & ->)
    | [(_ & sql & ->) | [(sql & e & _ & _ & ->)
    | [(message & sql & explanation & rows & _ & _ & _ & _ & ->)
    | (sql & rows & e & _ & _ & _ & _ & ->)]]]]]]];
    cbn [status payload];
    first [ left; split; [reflexivity|]; repeat eexists
          | right; split; [auto|]; repeat eexists; discriminate ].
Qed.

(** X2.  While a request is handled at most one query is sent to the
    warehouse, and only one that has passed the checks of the route: the
    cleaned text of the model, not empty, containing [SELECT] once
    upper-cased and no fence; it runs in a location that is not empty. *)
Theorem only_gated_sql_reaches_the_warehouse body (w : World Row) :
  exists evs,
    trace (snd (chat rt env remote body w)) = evs ++ trace w /\
    count isRemoteQuery evs <= 1 /\
    forall q l, In (RemoteQuery q l) evs -> Gated rt q /\ l <> [].
Proof.
  destruct (chat_outcomes body w) as (evs & T & H). cbv zeta in H.
  exists evs. split; [exact T|].
  assert (Q : quiet evs -> count isRemoteQuery evs <= 1 /\
              forall q l, In (RemoteQuery q l) evs -> Gated rt q /\ l <> []).
  { intros Q. split; [rewrite (quiet_count _ Q); lia|].
    intros q l Hin. now elim (quiet_no_query _ q l Q). }
  assert (O : forall sql, Gated rt sql -> OnlyQuery sql evs ->
              count isRemoteQuery evs <= 1 /\
              forall q l, In (RemoteQuery q l) evs -> Gated rt q /\ l <> []).
  { intros sql HG [Hc Ho]. split; [exact Hc|].
    intros q l Hin. destruct (Ho q l Hin) as [-> Hl]. auto. }
  destruct H as [(-> & _) | [(-> & _) | [(Hq & _) | [(Hq & _)
    | [(Hq & _) | [(sql & e & HG & Ho & _)
    | [(message & sql & explanation & rows & _ & HG & Ho & _)
    | (sql & rows & e & HG & Ho & _)]]]]]]];
    eauto; apply Q; reflexivity.
Qed.

(** X3.  Unless the response is the success document, the error
    ["Failed to execute query on BigQuery"] or the error ["Internal server
    error"], nothing has been executed for the request: neither
    [executeQuery] nor the warehouse has been called. *)
Theorem other_responses_execute_nothing body (w : World Row) :
  let response := fst (chat rt env remote body w) in
  status response <> 200 ->
  (forall details generatedQuery,
     payload response
     <> Failure (js "Failed to execute query on BigQuery") details generatedQuery) ->
  (forall details generatedQuery,
     payload response
     <> Failure (js "Internal server error") details generatedQuery) ->
  count isExecution (trace (snd (chat rt env remote body w)))
  = count isExecution (trace w).
Proof.
  destruct (chat_outcomes body w) as (evs & T & H). cbv zeta in *.
  intros Hs He Hi. rewrite T.
  assert (Q : quiet evs -> count isExecution (evs ++ trace w)
                           = count isExecution (trace w)).
  { intros Q. now rewrite count_app, (count_none _ _ _ Q). }
  destruct H as [(-> & _) | [(-> & _) | [(Hq & _) | [(Hq & _)
    | [(Hq & _) | [(sql & e & _ & _ & R)
    | [(message & sql & explanation & rows & _ & _ & _ & _ & R)
    | (sql & rows & e & _ & _ & _ & _ & R)]]]]]]];
    auto; try (apply Q; reflexivity); rewrite R in *.
  - now elim (He (Some e) (Some sql)).
  - now elim Hs.
  - now elim (Hi (Some e) None).
Qed.

(** X4.  A failure to generate the query ends the request: the response
    is 500 with the error ["Failed to generate SQL query"] and the message
    of the failure as [details], without [generatedQuery], and nothing has
    been executed.  The message is that of a missing configuration
    variable, or that of the model after ["Failed to generate SQL: "]. *)
Theorem generation_failure_is_fatal
    (message : jsstring) (w : World Row)
    (schemas : list TableSchema) (w1 : World Row)
    (e : jsstring) (w2 : World Row) :
  rejected (VString message) = false ->
  fetchSchemas env remote w = (Ok schemas, w1) ->
  generateQuery env remote message schemas w1 = (Throw e, w2) ->
  chat rt env remote (BodyWith (VString message)) w
  = ({| status := 500;
        payload := Failure (js "Failed to generate SQL query") (Some e) None |},
     w2)
  /\ count isExecution (trace w2) = count isExecution (trace w)
  /\ (e = js "BIGQUERY_PROJECT_ID environment variable is not set"
      \/ e = js "BIGQUERY_DATASET environment variable is not set"
      \/ e = js "GEMINI_API_KEY environment variable is not set"
      \/ exists e', e = js "Failed to generate SQL: " ++ e').
Proof.
  intros Hr Hs Hg. split; [|split].
  - rewrite (chat_valid _ _ _ _ _ _ _ _ Hr Hs).
    unfold catchAll, synthesize, bind at 1, tryCatch, bind at 1.
    now rewrite Hg.
  - rewrite (generateQuery_no_execution _ _ _ _ _ _ _ _ Hg).
    apply (fetchSchemas_no_execution _ _ _ _ _ _ Hs).
  - revert Hg. unfold generateQuery, getDatasetId.
    unfold bind at 1 2, emit. unfold bind at 1.
    match goal with
    | |- context [BigQueryService_initialize env ?w0] =>
        destruct (BigQueryService_initialize env w0) as [[[]|e0] wa] eqn:Ei
    end.
    + unfold bind at 1, getBigQuery, ret. unfold generateSQL.
      unfold bind at 1, emit. unfold bind at 1.
      match goal with
      | |- context [GeminiService_initialize env ?w0] =>
          destruct (GeminiService_initialize env w0) as [[[]|e1] wb] eqn:Eg
      end.
      * unfold tryCatch, bind, ret, throw.
        match goal with
        | |- context [generateContent remote ?x wb] =>
            destruct (generateContent remote x wb) as [[text|e2] wc]
        end; intros H; inversion H. do 3 right. now exists e2.
      * apply GeminiService_initialize_run in Eg.
        destruct Eg as (_ & _ & _ & _ & _ & ->).
        intros H; inversion H; auto.
    + apply BigQueryService_initialize_run in Ei.
      destruct Ei as (_ & _ & _ & _ & He).
      intros H; inversion H; subst.
      destruct He as [[_ ->] | (_ & _ & ->)]; auto.
Qed.

(** X5.  A failure to execute the query ends the request after the
    execution: the response is 500 with the error ["Failed to execute query
    on BigQuery"], the message of the failure as [details] and the query as
    [generatedQuery]; no explanation is asked for. *)
Theorem execution_failure_reports_the_query
    (message : jsstring) (w : World Row)
    (schemas : list TableSchema) (w1 : World Row)
    (sql : jsstring) (w2 : World Row)
    (e : jsstring) (w3 : World Row) :
  rejected (VString message) = false ->
  fetchSchemas env remote w = (Ok schemas, w1) ->
  generateQuery env remote message schemas w1 = (Ok sql, w2) ->
  includes SELECT (toUpperCase rt (trim sql)) = true ->
  executeQuery env remote sql w2 = (Throw e, w3) ->
  chat rt env remote (BodyWith (VString message)) w
  = ({| status := 500;
        payload := Failure (js "Failed to execute query on BigQuery")
                           (Some e) (Some sql) |}, w3).
Proof.
  intros Hr Hs Hg Hsel Hx.
  rewrite (chat_valid _ _ _ _ _ _ _ _ Hr Hs). unfold catchAll.
  rewrite (synthesize_generated _ _ _ _ _ _ _ _ _ Hg). unfold gateAndExecute.
  assert (Hne : trim sql <> []).
  { intros E. rewrite E in Hsel. discriminate Hsel. }
  destruct sql as [|c r]; [now elim Hne|].
  destruct (trim (c :: r)) as [|c' r'] eqn:E; [now elim Hne|].
  cbn [List.length Nat.eqb orb]. rewrite Hsel. cbn [negb].
  unfold bind at 1, tryCatch, bind at 1. rewrite Hx. reflexivity.
Qed.

(** X6.  Once the warehouse service is initialized, [executeQuery] fails
    only when the warehouse fails the query, and then with the message of
    the warehouse after ["BigQuery execution failed: "]; the lookup of the
    location never fails it: the query is sent, in a location that is not
    empty, after at most one metadata request. *)
Theorem executeQuery_fails_only_with_the_warehouse
    (query : jsstring) (w : World Row) res (w' : World Row) :
  bigquery_initialized (bigqueryService w) = true ->
  executeQuery env remote query w = (res, w') ->
  exists l evs,
    l <> [] /\
    (evs = [] \/ exists d, evs = [RemoteDatasetMetadata d]) /\
    trace w' = RemoteQuery query l :: evs ++ CallExecuteQuery query :: trace w /\
    res = rethrowAs (js "BigQuery execution failed: ")
            (execute remote (evs ++ CallExecuteQuery query :: trace w) query l).
Proof.
  intros Hi H.
  destruct (executeQuery_run _ _ _ _ H) as [(_ & Hu & _) | R]; [congruence|].
  exact R.
Qed.

(** ** The schema provider *)

Lemma dataset_run (w : World Row) r w' :
  @dataset Row w = (r, w') ->
  w' = w /\
  match r with
  | Ok d => datasetId (bigqueryService w) = Some d
  | Throw e => e = js "Cannot read properties of null (reading 'dataset')"
  end.
Proof.
  unfold dataset, bind, getBigQuery, ret, throw.
  destruct (bigquery (bigqueryService w)); [destruct (datasetId (bigqueryService w))|];
    intros H; inversion H; auto.
Qed.

Lemma BigQueryService_initialize_done (w : World Row) :
  bigquery_initialized (bigqueryService w) = true ->
  BigQueryService_initialize env w = (Ok tt, w).
Proof.
  intros H. unfold BigQueryService_initialize, bind, getBigQuery, ret.
  now rewrite H.
Qed.

Lemma getTableSchema_run name (w : World Row) r w' :
  bigquery_initialized (bigqueryService w) = true ->
  getTableSchema env remote name w = (r, w') ->
  bigqueryService w' = bigqueryService w /\
  match r with
  | Ok s =>
      exists d metadata,
        datasetId (bigqueryService w) = Some d /\
        getTableMetadata remote (trace w) d name = Ok metadata /\
        s = schemaOf name metadata /\
        trace w' = RemoteTableMetadata d name :: trace w
  | Throw e => exists e', e = js "Failed to get table schema: " ++ e'
  end.
Proof.
  intros Hi. unfold getTableSchema. unfold bind at 1.
  rewrite (BigQueryService_initialize_done w Hi).
  unfold tryCatch, bind at 1.
  destruct (@dataset Row w) as [[d|e] w1] eqn:Ed;
    apply dataset_run in Ed; destruct Ed as [E Hd]; subst w1.
  - unfold bind, await, ret, throw.
    destruct (getTableMetadata remote (trace w) d name) as [metadata|e] eqn:Em;
      intros H; inversion H; subst; cbn [bigqueryService]; split; auto.
    + exists d, metadata. auto.
    + now exists e.
  - unfold throw. intros H; inversion H; subst. split; auto.
    eexists; reflexivity.
Qed.

Lemma promiseAll_schemas tables : forall (w : World Row) schemas w' d,
  bigquery_initialized (bigqueryService w) = true ->
  datasetId (bigqueryService w) = Some d ->
  promiseAll (map (getTableSchema env remote) tables) w = (Ok schemas, w') ->
  map tableName schemas = tables /\
  trace w' = rev (map (RemoteTableMetadata d) tables) ++ trace w /\
  Forall (fun s => exists t metadata,
                     getTableMetadata remote t d (tableName s) = Ok metadata /\
                     s = schemaOf (tableName s) metadata) schemas.
Proof.
  induction tables as [|name tables IH]; intros w schemas w' d Hi Hd.
  - cbn. intros H; inversion H; subst. auto.
  - cbn [map promiseAll].
    destruct (getTableSchema env remote name w) as [r1 w1] eqn:E1.
    destruct (promiseAll (map (getTableSchema env remote) tables) w1)
      as [rs w2] eqn:E2.
    destruct r1 as [s|e]; [destruct rs as [l|e]|]; intros H; inversion H; subst.
    destruct (getTableSchema_run _ _ _ _ Hi E1)
      as (Hb & d' & metadata & Hd' & Hm & -> & T1).
    assert (d' = d) by congruence. subst d'.
    rewrite <- Hb in Hi, Hd.
    destruct (IH _ _ _ d Hi Hd E2) as (Hn & T2 & Hf).
    split; [cbn; now f_equal|]. split.
    + rewrite T2, T1. cbn [map rev]. now rewrite <- app_assoc.
    + constructor; auto. exists (trace w), metadata. auto.
Qed.

Lemma promiseAll_schemas_error tables : forall (w : World Row) e w',
  bigquery_initialized (bigqueryService w) = true ->
  promiseAll (map (getTableSchema env remote) tables) w = (Throw e, w') ->
  exists e', e = js "Failed to get table schema: " ++ e'.
Proof.
  induction tables as [|name tables IH]; intros w e w' Hi;
    cbn [map promiseAll]; [unfold ret; discriminate|].
  destruct (getTableSchema env remote name w) as [r1 wa] eqn:E1.
  destruct (promiseAll (map (getTableSchema env remote) tables) wa)
    as [rs wb] eqn:E2.
  destruct (getTableSchema_run _ _ _ _ Hi E1) as (Hb & Hr).
  destruct r1 as [s|ea].
  - destruct rs as [l|eb]; intros H; inversion H; subst.
    apply (IH wa e w'); [now rewrite Hb | exact E2].
  - intros H; inversion H; subst. exact Hr.
Qed.

Lemma getTables_run (w : World Row) r w' :
  getTables env remote w = (r, w') ->
  match r with
  | Ok tables =>
      exists d,
        bigquery_initialized (bigqueryService w') = true /\
        datasetId (bigqueryService w') = Some d /\
        listTables remote (trace w) d = Ok tables /\
        trace w' = RemoteGetTables d :: trace w
  | Throw e =>
      e = js "BIGQUERY_PROJECT_ID environment variable is not set"
      \/ e = js "BIGQUERY_DATASET environment variable is not set"
      \/ exists e', e = js "Failed to get tables: " ++ e'
  end.
Proof.
  unfold getTables. unfold bind at 1.
  destruct (BigQueryService_initialize env w) as [[[]|e] w1] eqn:Ei;
    apply BigQueryService_initialize_run in Ei; destruct Ei as (T1 & _ & Hi).
  - unfold tryCatch, bind at 1.
    destruct (@dataset Row w1) as [[d|e] w2] eqn:Ed;
      apply dataset_run in Ed; destruct Ed as [E Hd]; subst w2.
    + unfold await, throw. rewrite T1.
      destruct (listTables remote (trace w) d) as [tables|e] eqn:El;
        intros H; inversion H; subst; cbn [bigqueryService trace].
      * exists d. auto.
      * do 2 right. now exists e.
    + unfold throw. intros H; inversion H. do 2 right. now exists e.
  - destruct Hi as (_ & _ & He). intros H; inversion H; subst.
    destruct He as [[_ ->] | (_ & _ & ->)]; auto.
Qed.

(** X7.  When [getAllTableSchemas] succeeds, it returns one schema for each
    table of the listing, in the order of the listing, each built from
    the metadata that was returned for its table; one metadata request is
    made for each table, in that order, after the listing request. *)
Theorem getAllTableSchemas_follows_the_listing
    (w : World Row) (schemas : list TableSchema) (w' : World Row) :
  getAllTableSchemas env remote w = (Ok schemas, w') ->
  exists d,
    listTables remote (CallGetAllTableSchemas :: trace w) d
    = Ok (map tableName schemas)
    /\ trace w'
       = rev (map (RemoteTableMetadata d) (map tableName schemas))
         ++ RemoteGetTables d :: CallGetAllTableSchemas :: trace w
    /\ Forall (fun s => exists t metadata,
                 getTableMetadata remote t d (tableName s) = Ok metadata /\
                 s = schemaOf (tableName s) metadata) schemas.
Proof.
  unfold getAllTableSchemas. unfold bind at 1, emit.
  unfold tryCatch, bind at 1.
  match goal with
  | |- context [getTables env remote ?w0] =>
      destruct (getTables env remote w0) as [[tables|e] w1] eqn:Et
  end; [|unfold throw; discriminate].
  apply getTables_run in Et. cbn [trace] in Et.
  destruct Et as (d & Hi & Hd & Hl & T1).
  destruct (promiseAll (map (getTableSchema env remote) tables) w1)
    as [[l|e] w2] eqn:Ep; [|unfold throw; discriminate].
  intros H; inversion H; subst.
  destruct (promiseAll_schemas _ _ _ _ d Hi Hd Ep) as (Hn & T2 & Hf).
  exists d. rewrite Hn. split; [exact Hl|]. split; [|exact Hf].
  now rewrite T2, T1.
Qed.

(** X8.  Whatever makes [getAllTableSchemas] fail, the error it throws
    starts with ["Failed to get all table schemas: "] and goes on with the
    message of the cause: a missing configuration variable, the failed
    listing after ["Failed to get tables: "], or the failed table after
    ["Failed to get table schema: "]. *)
Theorem getAllTableSchemas_error_names_the_cause
    (w : World Row) (e : jsstring) (w' : World Row) :
  getAllTableSchemas env remote w = (Throw e, w') ->
  exists cause,
    e = js "Failed to get all table schemas: " ++ cause /\
    (cause = js "BIGQUERY_PROJECT_ID environment variable is not set"
     \/ cause = js "BIGQUERY_DATASET environment variable is not set"
     \/ (exists e', cause = js "Failed to get tables: " ++ e')
     \/ (exists e', cause = js "Failed to get table schema: " ++ e')).
Proof.
  unfold getAllTableSchemas. unfold bind at 1, emit.
  unfold tryCatch, bind at 1.
  match goal with
  | |- context [getTables env remote ?w0] =>
      destruct (getTables env remote w0) as [[tables|e0] w1] eqn:Et
  end; apply getTables_run in Et.
  - destruct Et as (d & Hi & _ & _ & _).
    destruct (promiseAll (map (getTableSchema env remote) tables) w1)
      as [[l|e1] w2] eqn:Ep; [discriminate|].
    unfold throw. intros H; inversion H; subst. exists e1. split; auto.
    do 3 right. exact (promiseAll_schemas_error _ _ _ _ Hi Ep).
  - unfold throw. intros H; inversion H; subst. exists e0. split; auto.
    destruct Et as [-> | [-> | He]]; auto.
Qed.

(** ** The prompt of the query *)


Lemma includes_after p a s : includes p s = true -> includes p (a ++ s) = true.
Proof.
  intros H. destruct (includes p (a ++ s)) eqn:E; auto.
  apply includes_app_r in E. congruence.
Qed.











(** ** The limits of the safety gate *)

Lemma trimStart_before x c t :
  isWhiteSpace c = false -> trimStart (x ++ c :: t) = trimStart x ++ c :: t.
Proof.
  intros H. induction x as [|a x IH]; cbn [app trimStart].
  - now rewrite H.
  - destruct (isWhiteSpace a); auto.
Qed.

Lemma trimEnd_last s c : isWhiteSpace c = false -> trimEnd (s ++ [c]) = s ++ [c].
Proof.
  intros H. unfold trimEnd. rewrite rev_app_distr. cbn [rev app trimStart].
  rewrite H. cbn [rev]. now rewrite rev_involutive.
Qed.

Lemma trim_keeps_comment x :
  trim (x ++ js "--select") = trimStart x ++ js "--select".
Proof.
  unfold trim.
  change (js "--select") with (45%N :: js "-selec" ++ [116%N]).
  rewrite trimStart_before by reflexivity.
  change (trimStart x ++ 45%N :: js "-selec" ++ [116%N])
    with (trimStart x ++ (45%N :: js "-selec") ++ [116%N]).
  rewrite app_assoc. now apply trimEnd_last.
Qed.

(** X19.  The safety gate is lexical.  With a runtime that upper-cases
    [select], any text followed by the comment [--select] passes the
    checks of the route, whatever the text is, and is handed to
    [executeQuery] as it is. *)
Theorem gate_accepts_any_text_with_a_select_comment
    (message x : jsstring) (w : World Row) :
  includes SELECT (toUpperCase rt (js "--select")) = true ->
  exists evs,
    trace (snd (gateAndExecute rt env remote message (x ++ js "--select") w))
    = evs ++ trace w
    /\ In (CallExecuteQuery (x ++ js "--select")) evs.
Proof.
  intros Hup. set (sql := x ++ js "--select").
  assert (Hs : includes SELECT (toUpperCase rt (trim sql)) = true).
  { unfold sql. rewrite trim_keeps_comment. unfold toUpperCase.
    rewrite flat_map_app. now apply includes_after. }
  assert (Hn : (Nat.eqb (List.length sql) 0
                || Nat.eqb (List.length (trim sql)) 0) = false).
  { unfold sql at 2. rewrite trim_keeps_comment. unfold sql.
    rewrite !length_app. cbn [js list_ascii_of_string map List.length].
    apply orb_false_iff. split; apply Nat.eqb_neq; lia. }
  unfold gateAndExecute. rewrite Hn, Hs. cbn [negb].
  unfold bind at 1, tryCatch, bind at 1.
  destruct (executeQuery env remote sql w) as [[rows|e] w3] eqn:Ex.
  - assert (T3 : exists evs3, trace w3 = evs3 ++ CallExecuteQuery sql :: trace w).
    { destruct (executeQuery_run _ _ _ _ Ex)
        as [(T & _) | (l & loc & _ & _ & T & _)].
      - exists []. exact T.
      - exists (RemoteQuery sql l :: loc). rewrite T. reflexivity. }
    destruct T3 as [evs3 T3].
    unfold ret at 1. cbv beta iota. unfold respond, res_json, bind, tryCatch.
    destruct (explainResults rt env remote message sql rows w3)
      as [[explanation|e] w4] eqn:Ee;
      destruct (quiet_explainResults _ _ _ _ _ _ Ee) as (evs4 & T4 & _);
      destruct (JSON_stringify rt rows);
      cbn [snd ret throw];
      (exists (evs4 ++ evs3 ++ [CallExecuteQuery sql]); split;
       [ rewrite T4, T3; repeat first [rewrite <- app_assoc | progress cbn [app]];
         reflexivity
       | apply in_or_app; right; apply in_or_app; right; now left ]).
  - assert (T3 : exists evs3, trace w3 = evs3 ++ CallExecuteQuery sql :: trace w).
    { destruct (executeQuery_run _ _ _ _ Ex)
        as [(T & _) | (l & loc & _ & _ & T & _)].
      - exists []. exact T.
      - exists (RemoteQuery sql l :: loc). rewrite T. reflexivity. }
    destruct T3 as [evs3 T3]. cbn [snd ret].
    exists (evs3 ++ [CallExecuteQuery sql]). split.
    + rewrite T3. now rewrite <- app_assoc.
    + apply in_or_app; right; now left.
Qed.

(** ** The singletons *)

(** X10.  Each client is built once: when the generation service is
    initialized, no call changes its client or its model afterwards; when
    the warehouse service is initialized, no call changes its client or
    its dataset identifier, and it stays initialized. *)
Theorem clients_are_built_once (w : World Row) (calls : list (ServiceCall Row)) :
  (gemini_initialized (geminiService w) = true ->
   geminiService (performAll rt env remote calls w) = geminiService w)
  /\
  (bigquery_initialized (bigqueryService w) = true ->
   let b' := bigqueryService (performAll rt env remote calls w) in
   bigquery b' = bigquery (bigqueryService w)
   /\ datasetId b' = datasetId (bigqueryService w)
   /\ bigquery_initialized b' = true).
Proof.
  split.
  - intros Hi.
    destruct (keeps_performAll Row rt env remote
                (fun g => g = geminiService w) (fun _ => True) (fun _ => true))
      with (calls := calls) (w := w) as (Hg & _); auto.
    intros g -> E. congruence.
  - intros Hi b'.
    destruct (keeps_performAll Row rt env remote
                (fun _ => True)
                (fun b => bigquery b = bigquery (bigqueryService w)
                          /\ datasetId b = datasetId (bigqueryService w)
                          /\ bigquery_initialized b = true)
                (fun _ => true))
      with (calls := calls) (w := w) as (_ & Hb & _); auto.
    intros b (_ & _ & E1) E2. congruence.
Qed.

End RouteProperties.

(* ================================================================== *)
(** * The client *)
(* ================================================================== *)

Section ClientProperties.

Variable Row : Type.
Variable WireRow : Type.
Variable wire : Row -> WireRow.
Variable stringify : list (ClientMessage WireRow) -> jsstring.
Variable rt : Runtime Row.
Variable env : Env.
Variable remote : Remote Row.

(** What [sendMessage] makes of a response of the route. *)
Lemma sendMessage_served (w : World Row) message :
  sendMessage (served wire rt env remote w) message
  = match payload (fst (chat rt env remote (BodyWith (VString message)) w)) with
    | Success userQuery sqlQuery explanation results resultCount =>
        Ok (Success userQuery sqlQuery explanation (map wire results) resultCount)
    | Failure error _ _ => Throw error
    end
  /\ match payload (fst (chat rt env remote (BodyWith (VString message)) w)) with
     | Success _ _ _ _ _ => True
     | Failure error _ _ => error <> []
     end.
Proof.
  unfold sendMessage, served.
  destruct (chat_outcomes Row rt env remote (BodyWith (VString message)) w)
    as (evs & _ & H). cbv zeta in H.
  destruct H as [(_ & e & ->) | [(_ & ->) | [(_ & e & ->) | [(_ & ->)
    | [(_ & sql & ->) | [(sql & e & _ & _ & ->)
    | [(m & sql & explanation & rows & _ & _ & _ & _ & ->)
    | (sql & rows & e & _ & _ & _ & _ & ->)]]]]]]];
    (split; [reflexivity | cbn; try discriminate; auto]).
Qed.

(** X11.  Through [sendMessage] the caller gets the document of a served
    request, and an exception carrying the [error] text of any other
    response of the route; [details] and [generatedQuery] are not passed
    on. *)
Theorem sendMessage_returns_or_throws_the_error (w : World Row) message :
  sendMessage (served wire rt env remote w) message
  = match payload (fst (chat rt env remote (BodyWith (VString message)) w)) with
    | Success userQuery sqlQuery explanation results resultCount =>
        Ok (Success userQuery sqlQuery explanation (map wire results) resultCount)
    | Failure error _ _ => Throw error
    end.
Proof. exact (proj1 (sendMessage_served w message)). Qed.

(** X12.  [handleSend] sends a message only when the component is not
    waiting for a response, and what it sends is the trimmed input, not
    empty: a message the validation of the route accepts.  The message of
    the user is then added to the conversation, the input is emptied and
    the component waits. *)
Theorem submitted_messages_pass_validation
    now iso (st : ChatState WireRow) message st' :
  submit stringify now iso st = (Some message, st') ->
  message = trim (inputValue st)
  /\ isLoading st = false
  /\ rejected (VString message) = false
  /\ messages st' = messages st ++ [userMessage now iso message]
  /\ inputValue st' = []
  /\ isLoading st' = true.
Proof.
  unfold submit.
  destruct (trim (inputValue st)) as [|c r] eqn:E; [discriminate|].
  destruct (isLoading st); [discriminate|].
  intros H; inversion H; subst. repeat split; auto.
  unfold rejected. cbn [falsy notString asString orb].
  rewrite <- E, trim_idem, E. reflexivity.
Qed.

(** X13.  An exchange with the route, when the input is not blank and the
    component is not waiting: the conversation grows by the message of
    the user, with the trimmed input, and by one reply.  For a served
    request the reply is an assistant message with the explanation, the
    query, the rows and their count; for any other response it is an
    error message showing the [error] text of the response.  The
    component no longer waits, the input is empty, and the conversation is
    stored. *)
Theorem exchange_shows_the_response
    now1 iso1 now2 iso2 (st : ChatState WireRow) (w : World Row) c r :
  trim (inputValue st) = c :: r ->
  isLoading st = false ->
  let st' := handleSend stringify (served wire rt env remote w)
               now1 iso1 now2 iso2 st in
  messages st'
  = messages st
    ++ [ userMessage now1 iso1 (c :: r);
         match payload (fst (chat rt env remote (BodyWith (VString (c :: r))) w))
         with
         | Success _ sql explanation rows n =>
             {| id := (now2 + 1)%N; type := TypeAssistant;
                content := Some explanation; sqlQuery := Some sql;
                results := Some (map wire rows); resultCount := Some n;
                timestamp := iso2 |}
         | Failure error _ _ =>
             {| id := (now2 + 1)%N; type := TypeError;
                content := Some error; sqlQuery := None;
                results := None; resultCount := None;
                timestamp := iso2 |}
         end ]
  /\ isLoading st' = false
  /\ inputValue st' = []
  /\ stored st' = Some (stringify (messages st')).
Proof.
  intros E Hl. unfold handleSend, submit. rewrite E, Hl.
  destruct (sendMessage_served w (c :: r)) as [-> Hne].
  cbv zeta. unfold settle, setIsLoading, setInputValue, setMessages.
  cbn [messages inputValue isLoading stored].
  rewrite <- app_assoc. cbn [app].
  destruct (payload (fst (chat rt env remote (BodyWith (VString (c :: r))) w)))
    as [error details generatedQuery|userQuery sql explanation rows n].
  - destruct error as [|e0 e]; [now elim Hne|].
    repeat split; auto.
    destruct (messages st); reflexivity.
  - repeat split; auto.
    destruct (messages st); reflexivity.
Qed.

(** X14.  Whatever happens to a component mounted on an empty storage,
    the storage follows the conversation: it holds the serialized messages
    when there are some, and nothing when there is none. *)
Theorem storage_follows_the_conversation (actions : list (Action WireRow)) :
  let st := actAll stringify actions mounted in
  stored st = match messages st with
              | [] => None
              | _ :: _ => Some (stringify (messages st))
              end.
Proof.
  cbv zeta.
  assert (G : forall st : ChatState WireRow,
            stored st = match messages st with
                        | [] => None
                        | _ :: _ => Some (stringify (messages st))
                        end ->
            stored (actAll stringify actions st)
            = match messages (actAll stringify actions st) with
              | [] => None
              | _ :: _ => Some (stringify (messages (actAll stringify actions st)))
              end).
  { induction actions as [|a actions IH]; intros st Hst; [exact Hst|].
    cbn [actAll fold_left]. apply IH.
    destruct a as [v|now iso|outcome now iso|[|]]; cbn [act]; auto.
    - unfold submit. destruct (trim (inputValue st)) as [|c r]; auto.
      destruct (isLoading st); auto. cbn.
      destruct (messages st); reflexivity.
    - unfold settle. cbn. destruct (messages st); reflexivity. }
  apply G. reflexivity.
Qed.

(** X15.  The conversation only grows, unless it is cleared: after any
    actions without a confirmed clearing, the messages there were are
    still there, in the same order, before those that were added. *)
Theorem conversation_is_append_only
    (actions : list (Action WireRow)) (st : ChatState WireRow) :
  ~ In (ClearClicked true) actions ->
  exists added,
    messages (actAll stringify actions st) = messages st ++ added.
Proof.
  revert st. induction actions as [|a actions IH]; intros st Hn.
  - exists []. now rewrite app_nil_r.
  - cbn [actAll fold_left].
    destruct (IH (act stringify a st)) as [added Ha].
    { intros Hin. apply Hn. now right. }
    unfold actAll in Ha. rewrite Ha.
    assert (Hs : exists one, messages (act stringify a st) = messages st ++ one).
    { destruct a as [v|now iso|outcome now iso|[|]]; cbn [act].
      - exists []. now rewrite app_nil_r.
      - unfold submit. destruct (trim (inputValue st)) as [|c r];
          [exists []; now rewrite app_nil_r|].
        destruct (isLoading st); [exists []; now rewrite app_nil_r|].
        eexists. reflexivity.
      - eexists. reflexivity.
      - elim Hn. now left.
      - exists []. now rewrite app_nil_r. }
    destruct Hs as [one ->]. exists (one ++ added). now rewrite app_assoc.
Qed.

(** X16.  While the component waits for a response it sends no other
    message: whatever is typed, submitted or cleared in the meantime, it
    keeps waiting and a submission sends nothing. *)
Theorem one_request_at_a_time
    (actions : list (Action WireRow)) (st : ChatState WireRow) :
  isLoading st = true ->
  (forall outcome now iso, ~ In (Settled outcome now iso) actions) ->
  isLoading (actAll stringify actions st) = true
  /\ forall now iso,
       fst (submit stringify now iso (actAll stringify actions st)) = None.
Proof.
  intros Hl Hn.
  assert (L : isLoading (actAll stringify actions st) = true).
  { revert st Hl. induction actions as [|a actions IH]; intros st Hl; auto.
    cbn [actAll fold_left]. apply IH.
    - intros outcome now iso Hin. apply (Hn outcome now iso). now right.
    - destruct a as [v|now iso|outcome now iso|[|]]; cbn [act]; auto.
      + unfold submit. destruct (trim (inputValue st)); auto.
        now rewrite Hl.
      + elim (Hn outcome now iso). now left. }
  split; auto. intros now iso. unfold submit.
  destruct (trim (inputValue _)); auto. now rewrite L.
Qed.

(** X18.  No message of the conversation is blank: in a component mounted
    on an empty storage, whatever happens, every message of the user has a
    content that is not empty and is trimmed, and every error message has
    a content that is not empty. *)
Theorem messages_are_never_blank (actions : list (Action WireRow)) :
  Forall (fun m =>
            match type m with
            | TypeUser =>
                exists c r, content m = Some (c :: r) /\ trim (c :: r) = c :: r
            | TypeError => exists c r, content m = Some (c :: r)
            | TypeAssistant => True
            end)
         (messages (actAll stringify actions mounted)).
Proof.
  set (good := fun m : ClientMessage WireRow =>
                 match type m with
                 | TypeUser =>
                     exists c r, content m = Some (c :: r)
                                 /\ trim (c :: r) = c :: r
                 | TypeError => exists c r, content m = Some (c :: r)
                 | TypeAssistant => True
                 end).
  assert (G : forall st : ChatState WireRow,
            Forall good (messages st) ->
            Forall good (messages (actAll stringify actions st))).
  { induction actions as [|a actions IH]; intros st Hst; [exact Hst|].
    cbn [actAll fold_left]. apply IH.
    destruct a as [v|now iso|outcome now iso|[|]]; cbn [act].
    - exact Hst.
    - unfold submit. destruct (trim (inputValue st)) as [|c r] eqn:E; auto.
      destruct (isLoading st); auto.
      cbn [snd messages setIsLoading setInputValue setMessages].
      apply Forall_app. split; auto. constructor; [|constructor].
      unfold good. cbn [type content userMessage].
      exists c, r. split; auto. rewrite <- E. apply trim_idem.
    - unfold settle. cbn [messages setIsLoading setMessages].
      apply Forall_app. split; auto. constructor; [|constructor].
      unfold good.
      destruct outcome as [response|e]; cbn [replyMessage type content]; auto.
      destruct e as [|c r]; cbn; eauto.
    - constructor.
    - exact Hst. }
  apply G. constructor.
Qed.

End ClientProperties.

(* ================================================================== *)
(** * The table of results *)
(* ================================================================== *)

Lemma jsEqb_eq a b : jsEqb a b = true <-> a = b.
Proof.
  revert b; induction a as [|x a IH]; intros [|y b]; cbn; split;
    try discriminate; auto.
  - intros H; apply andb_true_iff in H as [H1 H2].
    apply N.eqb_eq in H1. apply IH in H2. now subst.
  - intros H; inversion H; subst. rewrite N.eqb_refl. now apply IH.
Qed.

Lemma seen_spec k seen : existsb (jsEqb k) seen = true <-> In k seen.
Proof.
  rewrite existsb_exists. split.
  - intros (x & Hin & E). apply jsEqb_eq in E. now subst.
  - intros Hin. exists k. split; auto. now apply jsEqb_eq.
Qed.

Lemma addAll_spec keys : forall seen,
  NoDup seen ->
  NoDup (addAll seen keys)
  /\ (forall k, In k (addAll seen keys) <-> In k seen \/ In k keys)
  /\ exists more, addAll seen keys = seen ++ more.
Proof.
  induction keys as [|k keys IH]; intros seen Hn; cbn [addAll].
  - split; auto. split; [intros k; cbn; tauto|]. exists []. now rewrite app_nil_r.
  - destruct (existsb (jsEqb k) seen) eqn:E.
    + apply seen_spec in E. destruct (IH seen Hn) as (H1 & H2 & H3).
      split; auto. split; auto.
      intros k'. rewrite H2. cbn. intuition (subst; auto).
    + assert (Hk : ~ In k seen).
      { intros Hin. apply seen_spec in Hin. congruence. }
      assert (Hn' : NoDup (seen ++ [k])).
      { apply NoDup_app; auto.
        - constructor; auto. constructor.
        - intros x Hx [<- | []]. auto. }
      destruct (IH _ Hn') as (H1 & H2 & more & H3).
      split; auto. split.
      * intros k'. rewrite H2, in_app_iff. cbn. tauto.
      * exists (k :: more). rewrite H3, <- app_assoc. reflexivity.
Qed.

Lemma addAll_fresh keys : forall seen,
  NoDup (seen ++ keys) -> addAll seen keys = seen ++ keys.
Proof.
  induction keys as [|k keys IH]; intros seen Hn; cbn [addAll].
  - now rewrite app_nil_r.
  - assert (Hk : ~ In k seen).
    { intros Hin. apply NoDup_remove_2 in Hn. apply Hn.
      apply in_or_app; now left. }
    destruct (existsb (jsEqb k) seen) eqn:E;
      [apply seen_spec in E; now elim Hk|].
    rewrite IH; rewrite <- app_assoc; auto.
Qed.

Lemma addAll_app seen a b : addAll seen (a ++ b) = addAll (addAll seen a) b.
Proof.
  revert seen; induction a as [|k a IH]; intros seen; cbn [app addAll]; auto.
  destruct (existsb (jsEqb k) seen); apply IH.
Qed.

Section TableProperties.

Variable Cell : Type.
Variable isNull : Cell -> bool.
Variable toText : Cell -> jsstring.
Variable inherited : jsstring -> option Cell.

(** X17.  For results that are not empty [formatTableData] renders a
    rectangular table.  Its header lists every key of every row once, and
    nothing else, starting with the keys of the first row in their
    order; there is a line for each of the first 100 rows, and each line
    has a cell for each column; the note with the number of results is
    there exactly when there are more than 100. *)
Theorem formatTableData_is_rectangular (row : TableRow Cell) rest :
  exists header body limit,
    formatTableData isNull toText inherited (Some (row :: rest))
    = ResultsTable header body limit
    /\ NoDup header
    /\ (forall k, In k header <->
                  exists r, In r (row :: rest) /\ In k (keysOf r))
    /\ (NoDup (keysOf row) -> exists more, header = keysOf row ++ more)
    /\ List.length body = Nat.min 100 (List.length (row :: rest))
    /\ Forall (fun line => List.length line = List.length header) body
    /\ (limit = Some (List.length (row :: rest))
        <-> 100 < List.length (row :: rest)).
Proof.
  unfold formatTableData.
  set (rows := row :: rest).
  set (header := addAll [] (flat_map (@keysOf Cell) rows)).
  destruct (addAll_spec (flat_map (@keysOf Cell) rows) [] (NoDup_nil _))
    as (Hn & Hin & _).
  eexists; eexists; eexists. split; [reflexivity|].
  split; [exact Hn|]. split; [|split; [|split; [|split]]].
  - intros k. fold header in Hin. rewrite Hin, in_flat_map. cbn. tauto.
  - intros Hk. unfold header, rows. cbn [flat_map].
    rewrite addAll_app, (addAll_fresh (keysOf row) []); auto. cbn [app].
    destruct (addAll_spec (flat_map (@keysOf Cell) rest) (keysOf row) Hk)
      as (_ & _ & more & ->).
    now exists more.
  - rewrite length_map, length_firstn. reflexivity.
  - apply Forall_forall. intros line Hl.
    apply in_map_iff in Hl as (r & <- & _). apply length_map.
  - destruct (Nat.ltb 100 (List.length rows)) eqn:E.
    + apply Nat.ltb_lt in E. tauto.
    + apply Nat.ltb_ge in E. split; [discriminate | lia].
Qed.

End TableProperties.

(* ================================================================== *)
(** * The further properties on concrete requests *)
(* ================================================================== *)

Lemma only_gated_sql_reaches_the_warehouse_witness :
  exists evs,
    trace (snd (chat node configured (answering countSql)
                  (BodyWith (VString countMessage)) startup))
    = evs ++ trace (@startup CountRow)
    /\ In (RemoteQuery countSql (js "EU")) evs
    /\ Gated node countSql.
Proof.
  destruct (only_gated_sql_reaches_the_warehouse CountRow node configured
              (answering countSql) (BodyWith (VString countMessage)) startup)
    as (evs & T & _ & H).
  exists evs. split; [exact T|].
  assert (Hin : In (RemoteQuery countSql (js "EU")) evs).
  { rewrite app_nil_r in T. rewrite <- T. vm_compute. do 2 right. now left. }
  split; [exact Hin|]. exact (proj1 (H _ _ Hin)).
Defined.

Lemma other_responses_execute_nothing_witness :
  count isExecution
    (trace (snd (chat node configured failingModel
                   (BodyWith (VString countMessage)) startup)))
  = count isExecution (trace (@startup CountRow)).
Proof.
  apply (other_responses_execute_nothing CountRow node configured failingModel
           (BodyWith (VString countMessage)) startup).
  - vm_compute. discriminate.
  - intros details generatedQuery. vm_compute. discriminate.
  - intros details generatedQuery. vm_compute. discriminate.
Defined.

Lemma generation_failure_is_fatal_witness :
  exists w2,
    chat node configured failingModel (BodyWith (VString countMessage)) startup
    = ({| status := 500;
          payload := Failure (js "Failed to generate SQL query")
                       (Some (js "Failed to generate SQL: quota exceeded"))
                       None |}, w2).
Proof.
  destruct (generation_failure_is_fatal CountRow node configured failingModel
              countMessage startup [ordersSchema]
              (snd (fetchSchemas configured failingModel startup))
              (js "Failed to generate SQL: quota exceeded")
              (snd (generateQuery configured failingModel countMessage
                      [ordersSchema]
                      (snd (fetchSchemas configured failingModel startup))))
              eq_refl eq_refl eq_refl) as [H _].
  eexists. exact H.
Defined.

Lemma execution_failure_reports_the_query_witness :
  exists w3,
    chat node configured failingWarehouse (BodyWith (VString countMessage)) startup
    = ({| status := 500;
          payload := Failure (js "Failed to execute query on BigQuery")
                       (Some (js "BigQuery execution failed: Not found: Table dataset.orders"))
                       (Some countSql) |}, w3).
Proof.
  eexists.
  eapply (execution_failure_reports_the_query CountRow node configured
            failingWarehouse countMessage startup).
  - reflexivity.
  - reflexivity.
  - reflexivity.
  - reflexivity.
  - reflexivity.
Defined.

Lemma executeQuery_fails_only_with_the_warehouse_witness :
  let w := snd (getDatasetId (Row := CountRow) configured startup) in
  exists l evs,
    l <> [] /\
    (evs = [] \/ exists d, evs = [RemoteDatasetMetadata d]) /\
    trace (snd (executeQuery configured failingWarehouse countSql w))
    = RemoteQuery countSql l :: evs ++ CallExecuteQuery countSql :: trace w /\
    fst (executeQuery configured failingWarehouse countSql w)
    = rethrowAs (js "BigQuery execution failed: ")
        (execute failingWarehouse (evs ++ CallExecuteQuery countSql :: trace w)
           countSql l).
Proof.
  intros w.
  apply (executeQuery_fails_only_with_the_warehouse CountRow configured
           failingWarehouse countSql w).
  - reflexivity.
  - reflexivity.
Defined.

Lemma getAllTableSchemas_follows_the_listing_witness :
  exists d w',
    getAllTableSchemas configured (answering countSql) startup
    = (Ok [ordersSchema], w')
    /\ trace w' = [RemoteTableMetadata d (js "orders"); RemoteGetTables d;
                   CallGetAllTableSchemas].
Proof.
  destruct (getAllTableSchemas_follows_the_listing CountRow configured
              (answering countSql) startup [ordersSchema]
              (snd (getAllTableSchemas configured (answering countSql) startup))
              eq_refl) as (d & _ & T & _).
  exists d. eexists. split; [reflexivity|]. exact T.
Defined.

Lemma getAllTableSchemas_error_names_the_cause_witness :
  exists w',
    getAllTableSchemas configured (unlisted countSql) startup
    = (Throw (js "Failed to get all table schemas: Failed to get tables: access denied"),
       w').
Proof.
  destruct (getAllTableSchemas_error_names_the_cause CountRow configured
              (unlisted countSql) startup
              (js "Failed to get all table schemas: Failed to get tables: access denied")
              (snd (getAllTableSchemas configured (unlisted countSql) startup))
              eq_refl) as (cause & _ & _).
  eexists. reflexivity.
Defined.


Lemma clients_are_built_once_witness :
  let w := snd (chat node configured (answering countSql)
                  (BodyWith (VString countMessage)) startup) in
  geminiService (performAll node configured (answering countSql)
                   [Chat (BodyWith (VString countMessage)); GetTables] w)
  = geminiService w.
Proof.
  intros w.
  apply (proj1 (clients_are_built_once CountRow node configured
                  (answering countSql) w
                  [Chat (BodyWith (VString countMessage)); GetTables])).
  reflexivity.
Defined.

Lemma explanation_never_throws_in_route_witness :
  exists explanation w4,
    explainResults node configured (unexplained countSql) countMessage countSql
      countRows
      (snd (executeQuery configured (unexplained countSql) countSql
              (snd (generateQuery configured (unexplained countSql) countMessage
                      [ordersSchema]
                      (snd (fetchSchemas configured (unexplained countSql)
                              startup))))))
    = (Ok explanation, w4).
Proof.
  exact (explanation_never_throws_in_route CountRow node configured
           (unexplained countSql) countMessage [ordersSchema]
           (snd (fetchSchemas configured (unexplained countSql) startup))
           countSql
           (snd (generateQuery configured (unexplained countSql) countMessage
                   [ordersSchema]
                   (snd (fetchSchemas configured (unexplained countSql)
                           startup))))
           countRows
           (snd (executeQuery configured (unexplained countSql) countSql
                   (snd (generateQuery configured (unexplained countSql)
                           countMessage [ordersSchema]
                           (snd (fetchSchemas configured (unexplained countSql)
                                   startup))))))
           eq_refl eq_refl).
Defined.

Lemma gate_accepts_any_text_with_a_select_comment_witness :
  exists evs,
    trace (snd (gateAndExecute node configured (answering countSql) countMessage
                  (js "DROP TABLE dataset.orders; " ++ js "--select") startup))
    = evs ++ trace (@startup CountRow)
    /\ In (CallExecuteQuery (js "DROP TABLE dataset.orders; " ++ js "--select"))
          evs.
Proof.
  apply (gate_accepts_any_text_with_a_select_comment CountRow node configured
           (answering countSql) countMessage (js "DROP TABLE dataset.orders; ")
           startup).
  reflexivity.
Defined.

Lemma submitted_messages_pass_validation_witness :
  rejected (VString countMessage) = false
  /\ isLoading (snd (submit idsOf 1714557600000 sentAt asking)) = true.
Proof.
  destruct (submitted_messages_pass_validation CountRow idsOf 1714557600000
              sentAt asking countMessage
              (snd (submit idsOf 1714557600000 sentAt asking)) eq_refl)
    as (_ & _ & R & _ & _ & L).
  split; [exact R | exact L].
Defined.

Lemma exchange_shows_the_response_witness :
  let st' := handleSend idsOf
               (served asReceived node configured (answering countSql) startup)
               1714557600000 sentAt 1714557601000 sentAt asking in
  isLoading st' = false
  /\ inputValue st' = []
  /\ stored st' = Some (idsOf (messages st')).
Proof.
  intros st'.
  destruct (exchange_shows_the_response CountRow CountRow asReceived idsOf
              node configured (answering countSql)
              1714557600000 sentAt 1714557601000 sentAt asking startup
              67%N (js "ount the rows in table orders") eq_refl eq_refl)
    as (_ & L & I & S).
  split; [exact L|]. split; [exact I | exact S].
Defined.

Lemma conversation_is_append_only_witness :
  exists added,
    messages (actAll idsOf
                [ Submitted 1714557600000 sentAt; ClearClicked false;
                  Typed (js "and the customers?") ]
                asking)
    = messages asking ++ added.
Proof.
  apply (conversation_is_append_only CountRow idsOf).
  intros [H|[H|[H|[]]]]; discriminate H.
Defined.

Lemma one_request_at_a_time_witness :
  let waiting := snd (submit idsOf 1714557600000 sentAt asking) in
  let later := actAll idsOf
                 [ Typed (js "and the customers?");
                   Submitted 1714557600500 sentAt; ClearClicked true ]
                 waiting in
  isLoading later = true
  /\ forall now iso, fst (submit idsOf now iso later) = None.
Proof.
  intros waiting later.
  apply (one_request_at_a_time CountRow idsOf).
  - reflexivity.
  - intros outcome now iso [H|[H|[H|[]]]]; discriminate H.
Defined.

Lemma formatTableData_is_rectangular_witness :
  exists header body limit,
    formatTableData isNullCell numberText notInherited (Some raggedRows)
    = ResultsTable header body limit
    /\ (exists more, header = [js "cnt"; js "name"] ++ more)
    /\ Forall (fun line => List.length line = List.length header) body.
Proof.
  destruct (formatTableData_is_rectangular (option N) isNullCell numberText
              notInherited
              [ (js "cnt", Some 42%N); (js "name", None) ]
              [ [ (js "total", Some 7%N); (js "cnt", Some 1%N) ] ])
    as (header & body & limit & E & _ & _ & P & _ & F & _).
  exists header, body, limit. split; [exact E|]. split; [|exact F].
  apply P. constructor.
  - intros [H|[]]; discriminate H.
  - constructor; [intros [] | constructor].
Defined.
